(** * MOSAICDATASET: label conversion, clipping, tile transforms and sampling

    A shallow embedding of [util.py] and [mosaicdataset.py].

    Conventions of the embedding.
    - Python integers are [Z]; Python floats are exact rationals [Q]
      (the quotient [theArea/curLabel[5]], the normalized coordinates, the
      bounds of the sampling region and the augmentation parameters): this
      is the reading of the code in exact arithmetic.  The conversion of
      labels is also given in binary64 itself, in [Binary64], where the
      rounding of the floats matters.
    - An ABSOLUTE label [[CLASS,XL,YT,XR,YB,AREA]] is the record [Label];
      a YOLOv5 label [[CLASS,XC,YC,W,H]] is the record [YoloLabel].
    - A Python exception is an [outcome] carrying the exception's name.
    - The global NumPy generator is a tape of raw integers threaded through
      the sampler; a run that needs more draws than the tape holds ends in
      [Pending]. *)

From Stdlib Require Import ZArith QArith Qround Qabs List Bool Lia Lqa.
From Stdlib Require Import SpecFloat.
Import ListNotations.

Open Scope Z_scope.

(** ** Outcomes of a Python computation *)

Inductive exn : Type :=
| ZeroDivisionError
| ValueError
| UnboundLocalError
| SystemExit
| OverflowError.

Inductive outcome (A : Type) : Type :=
| Ok (a : A)
| Raise (e : exn)
| Pending.

Arguments Ok {A} a.
Arguments Raise {A} e.
Arguments Pending {A}.

Class Monad (M : Type -> Type) : Type := {
  ret : forall {A : Type}, A -> M A;
  bind : forall {A B : Type}, M A -> (A -> M B) -> M B
}.

Notation "x <- c ;; k" := (bind c (fun x => k))
  (at level 61, c at next level, right associativity).
Notation "' p <- c ;; k" := (bind c (fun x => match x with p => k end))
  (at level 61, p pattern, c at next level, right associativity).

#[export] Instance outcome_monad : Monad outcome := {
  ret := fun A a => Ok a;
  bind := fun A B c k =>
    match c with
    | Ok a => k a
    | Raise e => Raise e
    | Pending => Pending
    end
}.

(** ** Labels and rectangles *)

Record Label : Type := mkLabel {
  cls : Z;
  xLeft : Z;
  yTop : Z;
  xRight : Z;
  yBottom : Z;
  area : Z
}.

Record YoloLabel : Type := mkYolo {
  ycls : Z;
  xCenter : Q;
  yCenter : Q;
  width : Q;
  height : Q
}.

(** The rectangle goes from [rxLeft] to [rxRight-1] and from [ryTop] to
    [ryBottom-1]. *)
Record Rect : Type := mkRect {
  rxLeft : Z;
  ryTop : Z;
  rxRight : Z;
  ryBottom : Z
}.

Definition Qlt_bool (x y : Q) : bool := negb (Qle_bool y x).

(** ** util.get_labels_in_rectangle *)

Module Util.

(** The test "the label is inside the image" of the loop body. *)
Definition is_candidate (cur : Label) (r : Rect) : bool :=
  (rxLeft r <=? xRight cur) && (xLeft cur <? rxRight r) &&
  (ryTop r <=? yBottom cur) && (yTop cur <? ryBottom r).

Definition lxLeft (cur : Label) (r : Rect) : Z := Z.max 0 (xLeft cur - rxLeft r).
Definition lyTop (cur : Label) (r : Rect) : Z := Z.max 0 (yTop cur - ryTop r).
Definition lxRight (cur : Label) (r : Rect) : Z :=
  Z.min (rxRight r - rxLeft r) (xRight cur - rxLeft r).
Definition lyBottom (cur : Label) (r : Rect) : Z :=
  Z.min (ryBottom r - ryTop r) (yBottom cur - ryTop r).

Definition theArea (cur : Label) (r : Rect) : Z :=
  (lxRight cur r - lxLeft cur r) * (lyBottom cur r - lyTop cur r).

(** [theArea/curLabel[5]]: true division, raising on a zero divisor. *)
Definition true_div (a b : Z) : outcome Q :=
  if b =? 0 then Raise ZeroDivisionError else Ok (inject_Z a / inject_Z b)%Q.

Definition clipped (cur : Label) (r : Rect) : Label :=
  mkLabel (cls cur) (lxLeft cur r) (lyTop cur r) (lxRight cur r)
          (lyBottom cur r) (theArea cur r).

(** The [for] loop, with [outLabels] as an accumulator; [break] returns the
    accumulator with [isPartial = True]. *)
Fixpoint scan_labels (theLabels : list Label) (r : Rect) (minPct : Q)
         (rejectPartial : bool) (outLabels : list Label)
  : outcome (list Label * bool) :=
  match theLabels with
  | [] => Ok (outLabels, false)
  | curLabel :: rest =>
      if is_candidate curLabel r then
        areaRatio <- true_div (theArea curLabel r) (area curLabel) ;;
        if rejectPartial && Qlt_bool areaRatio 1 then Ok (outLabels, true)
        else if Qle_bool minPct areaRatio
             then scan_labels rest r minPct rejectPartial
                              (outLabels ++ [clipped curLabel r])
             else scan_labels rest r minPct rejectPartial outLabels
      else scan_labels rest r minPct rejectPartial outLabels
  end.

Definition get_labels_in_rectangle (theLabels : list Label) (r : Rect)
           (minPct : Q) (rejectPartial : bool) : outcome (list Label * bool) :=
  scan_labels theLabels r minPct rejectPartial [].

(** *** util.convert_objdetect_labels *)

(** Python's [round] on a float: to the nearest integer, ties to even. *)
Definition py_round (q : Q) : Z :=
  let f := Qfloor q in
  match (q - inject_Z f ?= 1 # 2)%Q with
  | Lt => f
  | Gt => f + 1
  | Eq => if Z.even f then f else f + 1
  end.

(** A list of labels in either format. *)
Inductive Labels : Type :=
| AbsoluteLabels (ls : list Label)
| YoloLabels (ls : list YoloLabel).

(** The entries [curLabel[0]] to [curLabel[4]] of a row, which is all the
    conversion reads of it, whatever the format of the row is. *)
Record Row : Type := mkRow {
  c0 : Z;
  c1 : Q;
  c2 : Q;
  c3 : Q;
  c4 : Q
}.

Definition row_of_label (l : Label) : Row :=
  mkRow (cls l) (inject_Z (xLeft l)) (inject_Z (yTop l))
        (inject_Z (xRight l)) (inject_Z (yBottom l)).

Definition row_of_yolo (l : YoloLabel) : Row :=
  mkRow (ycls l) (xCenter l) (yCenter l) (width l) (height l).

Definition rows (theLabels : Labels) : list Row :=
  match theLabels with
  | AbsoluteLabels ls => map row_of_label ls
  | YoloLabels ls => map row_of_yolo ls
  end.

(** Branch [theConversion==0], one row. *)
Definition to_absolute (imgWidth imgHeight : Z) (curLabel : Row) : Label :=
  mkLabel (c0 curLabel)
    (py_round ((c1 curLabel - c3 curLabel / 2) * inject_Z (imgWidth - 1)))
    (py_round ((c2 curLabel - c4 curLabel / 2) * inject_Z (imgHeight - 1)))
    (py_round ((c1 curLabel + c3 curLabel / 2) * inject_Z (imgWidth - 1)))
    (py_round ((c2 curLabel + c4 curLabel / 2) * inject_Z (imgHeight - 1)))
    (py_round (c3 curLabel * inject_Z imgWidth * c4 curLabel * inject_Z imgHeight)).

(** Division of a float by an integer, raising on a zero divisor. *)
Definition float_div (a : Q) (b : Z) : outcome Q :=
  if b =? 0 then Raise ZeroDivisionError else Ok (a / inject_Z b)%Q.

(** Branch [theConversion==1], one row. *)
Definition to_yolo (imgWidth imgHeight : Z) (curLabel : Row) : outcome YoloLabel :=
  xc <- float_div ((c1 curLabel + c3 curLabel) / 2) (imgWidth - 1) ;;
  yc <- float_div ((c2 curLabel + c4 curLabel) / 2) (imgHeight - 1) ;;
  w <- float_div (c3 curLabel - c1 curLabel) (imgWidth - 1) ;;
  h <- float_div (c4 curLabel - c2 curLabel) (imgHeight - 1) ;;
  ret (mkYolo (c0 curLabel) xc yc w h).

(** A list comprehension whose body may raise. *)
Fixpoint comprehension {A B : Type} (f : A -> outcome B) (l : list A)
  : outcome (list B) :=
  match l with
  | [] => Ok []
  | a :: l' =>
      b <- f a ;;
      bs <- comprehension f l' ;;
      ret (b :: bs)
  end.

Definition convert_objdetect_labels (theLabels : Labels)
           (imgWidth imgHeight theConversion : Z) : outcome Labels :=
  if theConversion =? 0 then
    Ok (AbsoluteLabels (map (to_absolute imgWidth imgHeight) (rows theLabels)))
  else if theConversion =? 1 then
    ls <- comprehension (to_yolo imgWidth imgHeight) (rows theLabels) ;;
    ret (YoloLabels ls)
  else Raise SystemExit.

(** *** Images *)

(** A NumPy array of shape [(shape0, shape1, ...)]: its rows of pixels.  A
    pixel stands for the value, or the vector of channel values, at one
    position. *)
Record Image (Pixel : Type) : Type := mkImage {
  shape0 : Z;
  shape1 : Z;
  pixels : list (list Pixel)
}.

Arguments mkImage {Pixel} shape0 shape1 pixels.
Arguments shape0 {Pixel} i.
Arguments shape1 {Pixel} i.
Arguments pixels {Pixel} i.

(** The element-wise float arithmetic of NumPy and skimage on pixels. *)
Class PixelOps (Pixel : Type) : Type := {
  (** [np.clip(p + a - b, 0, 1)] *)
  shift_clip : Q -> Q -> Pixel -> Pixel;
  (** multiplication by the normalized Gaussian mask of standard deviation
      [theSigma] centred at [(xCenter, yCenter)] *)
  apply_mask : Q -> Z -> Z -> Image Pixel -> Image Pixel;
  img_as_ubyte : Image Pixel -> Image Pixel
}.

Section Images.
Context {Pixel : Type} {ops : PixelOps Pixel}.

Definition fliplr (theImage : Image Pixel) : Image Pixel :=
  mkImage (shape0 theImage) (shape1 theImage) (map (@rev Pixel) (pixels theImage)).

Definition flipud (theImage : Image Pixel) : Image Pixel :=
  mkImage (shape0 theImage) (shape1 theImage) (rev (pixels theImage)).

Definition map_pixels (f : Pixel -> Pixel) (theImage : Image Pixel) : Image Pixel :=
  mkImage (shape0 theImage) (shape1 theImage) (map (map f) (pixels theImage)).

(** Bound of a slice [a:b] on an axis of length [n]. *)
Definition slice_bound (i n : Z) : Z :=
  if i <? 0 then Z.max (i + n) 0 else Z.min i n.

Definition slice {A : Type} (a b n : Z) (l : list A) : list A :=
  let a' := slice_bound a n in
  let b' := slice_bound b n in
  firstn (Z.to_nat (b' - a')) (skipn (Z.to_nat a') l).

Definition slice_len (a b n : Z) : Z :=
  Z.max 0 (slice_bound b n - slice_bound a n).

(** [theImage[y0:y1, x0:x1]] *)
Definition crop (theImage : Image Pixel) (y0 y1 x0 x1 : Z) : Image Pixel :=
  mkImage (slice_len y0 y1 (shape0 theImage))
          (slice_len x0 x1 (shape1 theImage))
          (map (slice x0 x1 (shape1 theImage))
               (slice y0 y1 (shape0 theImage) (pixels theImage))).

(** [int(x)] on a float: truncation towards zero. *)
Definition py_int (q : Q) : Z := Z.quot (Qnum q) (Zpos (Qden q)).

(** *** util.add_vigneting *)
Definition add_vigneting (theImage : Image Pixel)
           (sigmaMultiplier xRelCenter yRelCenter : Q) : Image Pixel :=
  let theSigma :=
    (sigmaMultiplier * inject_Z (Z.max (shape0 theImage) (shape1 theImage)) / 2)%Q in
  let xCenter := py_int (inject_Z (shape1 theImage) * xRelCenter) in
  let yCenter := py_int (inject_Z (shape0 theImage) * yRelCenter) in
  apply_mask theSigma xCenter yCenter theImage.

(** *** util.transform_image *)

Definition hflip_label (imgWidth : Z) (curLabel : Label) : Label :=
  mkLabel (cls curLabel) (imgWidth - 1 - xRight curLabel) (yTop curLabel)
          (imgWidth - 1 - xLeft curLabel) (yBottom curLabel) (area curLabel).

Definition vflip_label (imgHeight : Z) (curLabel : Label) : Label :=
  mkLabel (cls curLabel) (xLeft curLabel) (imgHeight - 1 - yBottom curLabel)
          (xRight curLabel) (imgHeight - 1 - yTop curLabel) (area curLabel).

(** The body of [if (flipValue & 1)!=0]. *)
Definition hflip (s : Image Pixel * list Label) : Image Pixel * list Label :=
  let theImage := fliplr (fst s) in
  (theImage, map (hflip_label (shape1 theImage)) (snd s)).

(** The body of [if (flipValue & 2)!=0]. *)
Definition vflip (s : Image Pixel * list Label) : Image Pixel * list Label :=
  let theImage := flipud (fst s) in
  (theImage, map (vflip_label (shape0 theImage)) (snd s)).

(** The two flips, as [flipValue] asks for them. *)
Definition flips (theImage : Image Pixel) (theLabels : list Label)
           (flipValue : Z) : Image Pixel * list Label :=
  let s0 := (theImage, theLabels) in
  let s1 := if negb (Z.land flipValue 1 =? 0) then hflip s0 else s0 in
  if negb (Z.land flipValue 2 =? 0) then vflip s1 else s1.

(** What [transform_image] returns, when it returns: the flips, the change
    of brightness and the vigneting.  The one exception of its body is that
    of [call_transform_image] below. *)
Definition transform_image (theImage : Image Pixel) (theLabels : list Label)
           (flipValue : Z)
           (brightValue brightScale sigmaMultiplier xRelCenter yRelCenter : Q)
  : Image Pixel * list Label :=
  let s := flips theImage theLabels flipValue in
  let bright :=
    map_pixels (shift_clip (brightValue * brightScale * 2) brightScale) (fst s) in
  (add_vigneting bright sigmaMultiplier xRelCenter yRelCenter, snd s).

(** An image without a pixel: no row or no column. *)
Definition no_pixel (theImage : Image Pixel) : bool :=
  (shape0 theImage =? 0) || (shape1 theImage =? 0).

(** A call of [transform_image].  On an image without a pixel the mask of
    [add_vigneting] is empty and [np.max(theMask)] raises [ValueError]; on
    the other images the call returns what [transform_image] gives. *)
Definition call_transform_image (theImage : Image Pixel)
           (theLabels : list Label) (flipValue : Z)
           (brightValue brightScale sigmaMultiplier xRelCenter yRelCenter : Q)
  : outcome (Image Pixel * list Label) :=
  if no_pixel theImage then Raise ValueError
  else Ok (transform_image theImage theLabels flipValue brightValue brightScale
                           sigmaMultiplier xRelCenter yRelCenter).

End Images.

End Util.

(** ** util.convert_objdetect_labels in binary64 *)

(** The arithmetic of [convert_objdetect_labels] as Python carries it out:
    the entries of a row are integers or IEEE 754 binary64 floats, an
    integer met by a float is converted to a float, and every operation on
    floats returns the float nearest to its exact result, ties to even.
    Floats are the [spec_float] of the Standard Library, with the precision
    and the exponent range of binary64. *)
Module Binary64.

Definition prec : Z := 53.
Definition emax : Z := 1024.

(** A Python number: an [int] or a [float]. *)
Inductive num : Type :=
| Int (n : Z)
| Float (x : spec_float).

(** The number a float stands for (0 for an infinity or a NaN). *)
Definition value (x : spec_float) : Q :=
  match x with
  | S754_finite s m e =>
      if s then (- (inject_Z (Zpos m) * Qpower 2 e))%Q
      else (inject_Z (Zpos m) * Qpower 2 e)%Q
  | _ => 0%Q
  end.


(** An integer as it stands, before any rounding. *)
Definition exact (n : Z) : spec_float :=
  match n with
  | Z0 => S754_zero false
  | Zpos m => S754_finite false m 0
  | Zneg m => S754_finite true m 0
  end.

(** [float(n)]: the nearest float, [OverflowError] beyond the range. *)
Definition of_int (n : Z) : outcome spec_float :=
  match binary_normalize prec emax n 0 false with
  | S754_infinity _ => Raise OverflowError
  | x => Ok x
  end.

Definition to_float (a : num) : outcome spec_float :=
  match a with
  | Int n => of_int n
  | Float x => Ok x
  end.

Definition is_zero (x : spec_float) : bool :=
  match x with
  | S754_zero _ => true
  | _ => false
  end.

(** [a + b] *)
Definition add (a b : num) : outcome num :=
  match a, b with
  | Int m, Int n => Ok (Int (m + n))
  | _, _ =>
      x <- to_float a ;;
      y <- to_float b ;;
      ret (Float (SFadd prec emax x y))
  end.

(** [a - b] *)
Definition sub (a b : num) : outcome num :=
  match a, b with
  | Int m, Int n => Ok (Int (m - n))
  | _, _ =>
      x <- to_float a ;;
      y <- to_float b ;;
      ret (Float (SFsub prec emax x y))
  end.

(** [a * b] *)
Definition mul (a b : num) : outcome num :=
  match a, b with
  | Int m, Int n => Ok (Int (m * n))
  | _, _ =>
      x <- to_float a ;;
      y <- to_float b ;;
      ret (Float (SFmul prec emax x y))
  end.

(** [a / b]: on two integers the exact quotient rounded once, otherwise the
    division of floats; [ZeroDivisionError] on a zero divisor. *)
Definition div (a b : num) : outcome num :=
  match a, b with
  | Int m, Int n =>
      if n =? 0 then Raise ZeroDivisionError
      else match SFdiv prec emax (exact m) (exact n) with
           | S754_infinity _ => Raise OverflowError
           | q => Ok (Float q)
           end
  | _, _ =>
      x <- to_float a ;;
      y <- to_float b ;;
      if is_zero y then Raise ZeroDivisionError
      else ret (Float (SFdiv prec emax x y))
  end.

(** [round(a)]: the nearest integer, ties to even. *)
Definition round (a : num) : outcome Z :=
  match a with
  | Int n => Ok n
  | Float S754_nan => Raise ValueError
  | Float (S754_infinity _) => Raise OverflowError
  | Float x => Ok (Util.py_round (value x))
  end.

(** [int(a)]: truncation towards zero. *)
Definition int (a : num) : outcome Z :=
  match a with
  | Int n => Ok n
  | Float S754_nan => Raise ValueError
  | Float (S754_infinity _) => Raise OverflowError
  | Float x => Ok (Util.py_int (value x))
  end.

(** The entries [curLabel[0]] to [curLabel[4]] of a row. *)
Record Row : Type := mkRow {
  c0 : num;
  c1 : num;
  c2 : num;
  c3 : num;
  c4 : num
}.

Definition row_of_label (l : Label) : Row :=
  mkRow (Int (cls l)) (Int (xLeft l)) (Int (yTop l))
        (Int (xRight l)) (Int (yBottom l)).

(** [int(round((c - s/2)*(size-1)))] *)
Definition low_corner (c s : num) (size : Z) : outcome Z :=
  half <- div s (Int 2) ;;
  d <- sub c half ;;
  p <- mul d (Int (size - 1)) ;;
  round p.

(** [int(round((c + s/2)*(size-1)))] *)
Definition high_corner (c s : num) (size : Z) : outcome Z :=
  half <- div s (Int 2) ;;
  d <- add c half ;;
  p <- mul d (Int (size - 1)) ;;
  round p.

(** Branch [theConversion==0], one row. *)
Definition to_absolute (imgWidth imgHeight : Z) (curLabel : Row) : outcome Label :=
  c <- int (c0 curLabel) ;;
  xl <- low_corner (c1 curLabel) (c3 curLabel) imgWidth ;;
  yt <- low_corner (c2 curLabel) (c4 curLabel) imgHeight ;;
  xr <- high_corner (c1 curLabel) (c3 curLabel) imgWidth ;;
  yb <- high_corner (c2 curLabel) (c4 curLabel) imgHeight ;;
  a <- mul (c3 curLabel) (Int imgWidth) ;;
  a <- mul a (c4 curLabel) ;;
  a <- mul a (Int imgHeight) ;;
  a <- round a ;;
  ret (mkLabel c xl yt xr yb a).

(** [((a + b)/2)/(size-1)] *)
Definition center (a b : num) (size : Z) : outcome num :=
  s <- add a b ;;
  m <- div s (Int 2) ;;
  div m (Int (size - 1)).

(** [(b - a)/(size-1)] *)
Definition extent (a b : num) (size : Z) : outcome num :=
  d <- sub b a ;;
  div d (Int (size - 1)).

(** Branch [theConversion==1], one row. *)
Definition to_yolo (imgWidth imgHeight : Z) (curLabel : Row) : outcome Row :=
  xc <- center (c1 curLabel) (c3 curLabel) imgWidth ;;
  yc <- center (c2 curLabel) (c4 curLabel) imgHeight ;;
  w <- extent (c1 curLabel) (c3 curLabel) imgWidth ;;
  h <- extent (c2 curLabel) (c4 curLabel) imgHeight ;;
  ret (mkRow (c0 curLabel) xc yc w h).

(** The output of a conversion: absolute labels, or rows of floats. *)
Inductive Labels : Type :=
| AbsoluteLabels (ls : list Label)
| YoloLabels (ls : list Row).

Definition convert_objdetect_labels (theLabels : list Row)
           (imgWidth imgHeight theConversion : Z) : outcome Labels :=
  if theConversion =? 0 then
    ls <- Util.comprehension (to_absolute imgWidth imgHeight) theLabels ;;
    ret (AbsoluteLabels ls)
  else if theConversion =? 1 then
    ls <- Util.comprehension (to_yolo imgWidth imgHeight) theLabels ;;
    ret (YoloLabels ls)
  else Raise SystemExit.


End Binary64.


(** ** mosaicdataset.MosaicDataSet *)

(** The state of [np.random]: the raw draws still to come. *)
Definition Tape : Type := list Z.

Definition Rand (A : Type) : Type := Tape -> outcome (A * Tape).

#[export] Instance rand_monad : Monad Rand := {
  ret := fun A a tape => Ok (a, tape);
  bind := fun A B c k tape =>
    match c tape with
    | Ok (a, tape') => k a tape'
    | Raise e => Raise e
    | Pending => Pending
    end
}.

Definition lift {A : Type} (c : outcome A) : Rand A :=
  fun tape =>
    match c with
    | Ok a => Ok (a, tape)
    | Raise e => Raise e
    | Pending => Pending
    end.

Definition raise {A : Type} (e : exn) : Rand A := fun _ => Raise e.

(** [np.random.randint(low, high)]: the bounds, which may be floats, are
    cut to integers with [int], and the draw is an integer of
    [[int(low), int(high))]. *)
Definition randint (low high : Q) : Rand Z :=
  fun tape =>
    let low := Util.py_int low in
    let high := Util.py_int high in
    if low <? high then
      match tape with
      | [] => Pending
      | raw :: tape' => Ok (low + raw mod (high - low), tape')
      end
    else Raise ValueError.

(** [np.random.random()]: a float of [[0, 1)], a multiple of [2^-53]. *)
Definition random : Rand Q :=
  fun tape =>
    match tape with
    | [] => Pending
    | raw :: tape' => Ok (Qmake (raw mod 2 ^ 53) (2 ^ 53), tape')
    end.

Module MosaicDataSet.

(** The attributes of a [MosaicDataSet] that [get_image] reads.  The bounds
    of the sampling region are the products [ratio*size] that
    [set_mosaic_ratio] stores: floats, integers only when the ratios make
    them so. *)
Record t (Pixel : Type) : Type := mkDataSet {
  _imgWidth : Z;
  _imgHeight : Z;
  _minLabels : Z;
  _minArea : Q;
  _maxIter : Z;
  _brightScale : Q;
  _minVSigma : Q;
  _maxVSigma : Q;
  _minVX : Q;
  _maxVX : Q;
  _minVY : Q;
  _maxVY : Q;
  _rejectPartial : bool;
  _theMosaic : Util.Image Pixel;
  _theLabels : list Label;
  _mosaicXMin : Q;
  _mosaicXMax : Q;
  _mosaicYMin : Q;
  _mosaicYMax : Q
}.

Arguments _imgWidth {Pixel} t.
Arguments _imgHeight {Pixel} t.
Arguments _minLabels {Pixel} t.
Arguments _minArea {Pixel} t.
Arguments _maxIter {Pixel} t.
Arguments _brightScale {Pixel} t.
Arguments _minVSigma {Pixel} t.
Arguments _maxVSigma {Pixel} t.
Arguments _minVX {Pixel} t.
Arguments _maxVX {Pixel} t.
Arguments _minVY {Pixel} t.
Arguments _maxVY {Pixel} t.
Arguments _rejectPartial {Pixel} t.
Arguments _theMosaic {Pixel} t.
Arguments _theLabels {Pixel} t.
Arguments _mosaicXMin {Pixel} t.
Arguments _mosaicXMax {Pixel} t.
Arguments _mosaicYMin {Pixel} t.
Arguments _mosaicYMax {Pixel} t.

(** The local variables of [get_image] that outlive a trial.  [bestRect]
    and [bestLabels] are unbound until their first assignment. *)
Record Locals : Type := mkLocals {
  maxLabels : Z;
  bestRect : option Rect;
  bestLabels : option (list Label)
}.

Definition initial : Locals := mkLocals 0 None None.

(** The outcome of the [while doSearch] loop: the last rectangle drawn and
    its labels. *)
Record Trial : Type := mkTrial {
  rect : Rect;
  curLabels : list Label
}.

Definition numLabels (tr : Trial) : Z := Z.of_nat (length (curLabels tr)).

(** The locals once the trial is stored. *)
Definition recorded (tr : Trial) : Locals :=
  mkLocals (numLabels tr) (Some (rect tr)) (Some (curLabels tr)).

(** "Store the data if the current rectangle has more labels". *)
Definition store (st : Locals) (tr : Trial) : Locals :=
  if (maxLabels st <? numLabels tr) || (maxLabels st =? 0)
  then recorded tr
  else st.

Section Sampler.
Context {Pixel : Type} {ops : Util.PixelOps Pixel}.
Variable self : t Pixel.

(** One pass of the body of [while doSearch]. *)
Definition draw : Rand (Trial * bool) :=
  xLeft <- randint (_mosaicXMin self)
                    (_mosaicXMax self - inject_Z (_imgWidth self))%Q ;;
  yTop <- randint (_mosaicYMin self)
                   (_mosaicYMax self - inject_Z (_imgHeight self))%Q ;;
  let xRight := xLeft + _imgWidth self in
  let yBottom := yTop + _imgHeight self in
  let r := mkRect xLeft yTop xRight yBottom in
  ' (curLabels, isPartial) <-
      lift (Util.get_labels_in_rectangle (_theLabels self) r (_minArea self)
                                         (_rejectPartial self)) ;;
  ret (mkTrial r curLabels, _rejectPartial self && isPartial).

(** The [while doSearch] loop; [fuel] bounds the number of passes. *)
Fixpoint search (fuel : nat) : Rand Trial :=
  match fuel with
  | O => fun _ => Pending
  | S fuel' =>
      ' (tr, doSearch) <- draw ;;
      if doSearch then search fuel' else ret tr
  end.

(** The loop runs as long as the generator delivers: every pass draws, so
    one pass more than the draws at hand cannot be completed. *)
Definition trial : Rand Trial :=
  fun tape => search (S (length tape)) tape.

(** [for i in range(self._maxIter)], with [n] iterations left. *)
Fixpoint iterate (n : nat) (st : Locals) : Rand Locals :=
  match n with
  | O => ret st
  | S n' =>
      tr <- trial ;;
      let st' := store st tr in
      if _minLabels self <=? numLabels tr then ret st'
      else iterate n' st'
  end.

(** A name read before its first assignment. *)
Definition read {A : Type} (v : option A) : Rand A :=
  match v with
  | Some a => ret a
  | None => raise UnboundLocalError
  end.

(** From "Get the image" to the end of [get_image], on the stored trial. *)
Definition deliver (bestRect : Rect) (bestLabels : list Label)
           (outUBYTE : bool) (lblFormat : Z)
  : Rand (Util.Image Pixel * Util.Labels) :=
  let outImage :=
    Util.crop (_theMosaic self) (ryTop bestRect) (ryBottom bestRect)
              (rxLeft bestRect) (rxRight bestRect) in
  flipValue <- randint 0 4 ;;
  brightValue <- random ;;
  u1 <- random ;;
  u2 <- random ;;
  u3 <- random ;;
  let sigmaMultiplier :=
    (u1 * (_maxVSigma self - _minVSigma self) + _minVSigma self)%Q in
  let xRelCenter := (u2 * (_maxVX self - _minVX self) + _minVX self)%Q in
  let yRelCenter := (u3 * (_maxVY self - _minVY self) + _minVY self)%Q in
  transformed <-
    lift (Util.call_transform_image outImage bestLabels flipValue brightValue
                                    (_brightScale self) sigmaMultiplier
                                    xRelCenter yRelCenter) ;;
  bestLabels <- lift (Util.convert_objdetect_labels
                        (Util.AbsoluteLabels (snd transformed))
                        (_imgWidth self) (_imgHeight self) lblFormat) ;;
  let outImage := if outUBYTE then Util.img_as_ubyte (fst transformed)
                  else fst transformed in
  ret (outImage, bestLabels).

Definition get_image (outUBYTE : bool) (lblFormat : Z)
  : Rand (Util.Image Pixel * Util.Labels) :=
  st <- iterate (Z.to_nat (_maxIter self)) initial ;;
  bestRect <- read (bestRect st) ;;
  bestLabels <- read (bestLabels st) ;;
  deliver bestRect bestLabels outUBYTE lblFormat.

(** The first [n] trials of a run that no trial stops: what the loop sees
    when no trial reaches [_minLabels]. *)
Fixpoint trials (n : nat) : Rand (list Trial) :=
  match n with
  | O => ret []
  | S n' =>
      tr <- trial ;;
      trs <- trials n' ;;
      ret (tr :: trs)
  end.

End Sampler.

End MosaicDataSet.

(** ** Sample data *)

Module Sample.
Import MosaicDataSet.

(** Pixels without a value: the label side of the sampler alone. *)
#[export] Instance blank_ops : Util.PixelOps unit := {
  shift_clip := fun _ _ p => p;
  apply_mask := fun _ _ _ theImage => theImage;
  img_as_ubyte := fun theImage => theImage
}.

Definition blank_mosaic : Util.Image unit :=
  Util.mkImage 100 100 (repeat (repeat tt 100) 100).

(** A mosaic of 100 by 100 pixels, all of it open to sampling, and tiles of
    10 by 10 pixels. *)
Definition dataset (theLabels : list Label) (minLabels maxIter : Z)
           (rejectPartial : bool) : MosaicDataSet.t unit :=
  mkDataSet unit 10 10 minLabels (1 # 2) maxIter (1 # 10) (1 # 2) (5 # 4)
            (2 # 5) (3 # 5) (2 # 5) (3 # 5) rejectPartial
            blank_mosaic theLabels 0 100 0 100.

End Sample.

(** ** Vocabulary of the properties *)

Module Props.

(** The data model of an ABSOLUTE label. *)
Definition ordered (l : Label) : Prop :=
  xLeft l <= xRight l /\ yTop l <= yBottom l.

Definition proper (l : Label) : Prop :=
  xLeft l < xRight l /\ yTop l < yBottom l.

Definition area_invariant (l : Label) : Prop :=
  area l = (xRight l - xLeft l) * (yBottom l - yTop l).

Definition rect_ordered (r : Rect) : Prop :=
  rxLeft r <= rxRight r /\ ryTop r <= ryBottom r.

(** The box of the label lies inside the rectangle. *)
Definition contained (l : Label) (r : Rect) : Prop :=
  rxLeft r <= xLeft l /\ xRight l <= rxRight r /\
  ryTop r <= yTop l /\ yBottom l <= ryBottom r.

(** The label moved to the coordinates of the rectangle. *)
Definition translate (r : Rect) (l : Label) : Label :=
  mkLabel (cls l) (xLeft l - rxLeft r) (yTop l - ryTop r)
          (xRight l - rxLeft r) (yBottom l - ryTop r) (area l).

(** Pixel [(x, y)] belongs to the box of the label, whose area is
    [(xRight-xLeft)*(yBottom-yTop)], and to the rectangle. *)
Definition in_box (l : Label) (x y : Z) : Prop :=
  xLeft l <= x < xRight l /\ yTop l <= y < yBottom l.

Definition in_rect (r : Rect) (x y : Z) : Prop :=
  rxLeft r <= x < rxRight r /\ ryTop r <= y < ryBottom r.

Definition zero_overlap (l : Label) (r : Rect) : Prop :=
  forall x y : Z, ~ (in_box l x y /\ in_rect r x y).

(** What the output labels of a clip must satisfy. *)
Definition within_tile (r : Rect) (l : Label) : Prop :=
  0 <= xLeft l <= xRight l /\ xRight l <= rxRight r - rxLeft r /\
  0 <= yTop l <= yBottom l /\ yBottom l <= ryBottom r - ryTop r /\
  area l = (xRight l - xLeft l) * (yBottom l - yTop l).


(** The scan of [get_labels_in_rectangle] with the input labels it keeps in
    place of their clipped copies: the provenance of the output list. *)
Fixpoint scan_sources (theLabels : list Label) (r : Rect) (minPct : Q)
         (rejectPartial : bool) (kept : list Label)
  : outcome (list Label * bool) :=
  match theLabels with
  | [] => Ok (kept, false)
  | curLabel :: rest =>
      if Util.is_candidate curLabel r then
        areaRatio <- Util.true_div (Util.theArea curLabel r) (area curLabel) ;;
        if rejectPartial && Qlt_bool areaRatio 1 then Ok (kept, true)
        else if Qle_bool minPct areaRatio
             then scan_sources rest r minPct rejectPartial (kept ++ [curLabel])
             else scan_sources rest r minPct rejectPartial kept
      else scan_sources rest r minPct rejectPartial kept
  end.

Definition sources (theLabels : list Label) (r : Rect) (minPct : Q)
           (rejectPartial : bool) : outcome (list Label * bool) :=
  scan_sources theLabels r minPct rejectPartial [].

End Props.

(** ** Vocabulary of the further properties *)

Module Terms.

(** The area of the box of a label, as its corners give it. *)
Definition box_area (l : Label) : Z :=
  (xRight l - xLeft l) * (yBottom l - yTop l).

(** The value of [areaRatio] for a label whose area field is not zero. *)
Definition areaRatio (l : Label) (r : Rect) : Q :=
  (inject_Z (Util.theArea l r) / inject_Z (area l))%Q.

(** The two tests a label passes to be appended to [outLabels]. *)
Definition keeps (r : Rect) (minPct : Q) (l : Label) : bool :=
  Util.is_candidate l r && Qle_bool minPct (areaRatio l r).

(** The box of a label lies on the pixels of an image of the given shape. *)
Definition on_image (imgHeight imgWidth : Z) (l : Label) : Prop :=
  0 <= xLeft l <= xRight l /\ xRight l <= imgWidth - 1 /\
  0 <= yTop l <= yBottom l /\ yBottom l <= imgHeight - 1.

(** Two labels of the same class, area field and box size. *)
Definition same_size (l l' : Label) : Prop :=
  cls l' = cls l /\ area l' = area l /\
  xRight l' - xLeft l' = xRight l - xLeft l /\
  yBottom l' - yTop l' = yBottom l - yTop l.

(** Two labels of the same class and corners. *)
Definition same_box (l l' : Label) : Prop :=
  cls l' = cls l /\ xLeft l' = xLeft l /\ yTop l' = yTop l /\
  xRight l' = xRight l /\ yBottom l' = yBottom l.

(** The rows of an image agree with its shape. *)
Definition well_formed {Pixel : Type} (theImage : Util.Image Pixel) : Prop :=
  0 <= Util.shape0 theImage /\ 0 <= Util.shape1 theImage /\
  Z.of_nat (length (Util.pixels theImage)) = Util.shape0 theImage /\
  Forall (fun row => Z.of_nat (length row) = Util.shape1 theImage)
         (Util.pixels theImage).

(** The pixel of row [y] and column [x] of an image, the indices being not
    negative. *)
Definition pixel_at {Pixel : Type} (theImage : Util.Image Pixel) (y x : Z)
  : option Pixel :=
  match nth_error (Util.pixels theImage) (Z.to_nat y) with
  | Some row => nth_error row (Z.to_nat x)
  | None => None
  end.

(** The rectangle is a tile of the data set placed in its sampling region,
    the bounds of the region being cut to integers as the draw cuts them. *)
Definition in_region {Pixel : Type} (self : MosaicDataSet.t Pixel) (r : Rect)
  : Prop :=
  Util.py_int (MosaicDataSet._mosaicXMin self) <= rxLeft r /\
  rxLeft r < Util.py_int (MosaicDataSet._mosaicXMax self
                          - inject_Z (MosaicDataSet._imgWidth self))%Q /\
  rxRight r = rxLeft r + MosaicDataSet._imgWidth self /\
  Util.py_int (MosaicDataSet._mosaicYMin self) <= ryTop r /\
  ryTop r < Util.py_int (MosaicDataSet._mosaicYMax self
                         - inject_Z (MosaicDataSet._imgHeight self))%Q /\
  ryBottom r = ryTop r + MosaicDataSet._imgHeight self.

(** The number of labels of a list in either format. *)
Definition count (theLabels : Util.Labels) : nat :=
  match theLabels with
  | Util.AbsoluteLabels ls => length ls
  | Util.YoloLabels ls => length ls
  end.

End Terms.

(** * Properties *)

(** ** Rational comparisons *)

Lemma Qlt_bool_iff (x y : Q) : Qlt_bool x y = true <-> (x < y)%Q.
Proof.
  unfold Qlt_bool. rewrite negb_true_iff.
  split; intro H.
  - apply Qnot_le_lt. intro Hle. apply Qle_bool_iff in Hle. congruence.
  - destruct (Qle_bool y x) eqn:E; [|reflexivity].
    apply Qle_bool_iff in E. exfalso. exact (Qlt_not_le _ _ H E).
Qed.

Lemma Qlt_bool_false_iff (x y : Q) : Qlt_bool x y = false <-> (y <= x)%Q.
Proof.
  unfold Qlt_bool. rewrite negb_false_iff. apply Qle_bool_iff.
Qed.

Lemma Qle_bool_false_iff (x y : Q) : Qle_bool x y = false <-> (y < x)%Q.
Proof.
  split; intro H.
  - apply Qnot_le_lt. intro Hle. apply Qle_bool_iff in Hle. congruence.
  - destruct (Qle_bool x y) eqn:E; [|reflexivity].
    apply Qle_bool_iff in E. exfalso. exact (Qlt_not_le _ _ H E).
Qed.

Lemma ratio_self (a : Z) : a <> 0 -> (inject_Z a / inject_Z a == 1)%Q.
Proof.
  intro H. apply Qmult_inv_r. intro E.
  apply H. unfold Qeq in E. simpl in E. lia.
Qed.

Lemma ratio_zero (b : Z) : (inject_Z 0 / inject_Z b == 0)%Q.
Proof. unfold Qdiv. apply Qmult_0_l. Qed.

(** ** The clip: [get_labels_in_rectangle] *)

Module ClipFacts.
Import Util Props.

Lemma true_div_ok (a b : Z) :
  b <> 0 -> true_div a b = Ok (inject_Z a / inject_Z b)%Q.
Proof.
  intro H. unfold true_div. destruct (Z.eqb_spec b 0); [contradiction|reflexivity].
Qed.

Lemma true_div_zero (a : Z) : true_div a 0 = Raise ZeroDivisionError.
Proof. reflexivity. Qed.

(** The accumulator is only ever extended. *)
Lemma scan_labels_acc (ls : list Label) (r : Rect) (m : Q) (rp : bool) :
  forall acc,
    scan_labels ls r m rp acc =
    ' (out, p) <- scan_labels ls r m rp [] ;; Ok (acc ++ out, p).
Proof.
  induction ls as [|cur rest IH]; intro acc; simpl.
  - now rewrite app_nil_r.
  - destruct (is_candidate cur r); [|apply IH].
    destruct (true_div (theArea cur r) (area cur)) as [q| |]; simpl; trivial.
    destruct (rp && Qlt_bool q 1); [now rewrite app_nil_r|].
    destruct (Qle_bool m q); [|apply IH].
    rewrite IH, (IH [clipped cur r]).
    destruct (scan_labels rest r m rp []) as [[o p]| |]; simpl; trivial.
    now rewrite <- app_assoc.
Qed.

(** The output list is the clipped copy of the kept input labels. *)
Lemma scan_labels_sources (ls : list Label) (r : Rect) (m : Q) (rp : bool) :
  forall kept,
    scan_labels ls r m rp (map (fun l => clipped l r) kept) =
    ' (src, p) <- scan_sources ls r m rp kept ;;
    Ok (map (fun l => clipped l r) src, p).
Proof.
  induction ls as [|cur rest IH]; intro kept; simpl; trivial.
  destruct (is_candidate cur r); [|apply IH].
  destruct (true_div (theArea cur r) (area cur)) as [q| |]; simpl; trivial.
  destruct (rp && Qlt_bool q 1); trivial.
  destruct (Qle_bool m q); [|apply IH].
  specialize (IH (kept ++ [cur])). rewrite map_app in IH. exact IH.
Qed.

Lemma clip_sources (ls : list Label) (r : Rect) (m : Q) (rp : bool) :
  get_labels_in_rectangle ls r m rp =
  ' (src, p) <- sources ls r m rp ;; Ok (map (fun l => clipped l r) src, p).
Proof. exact (scan_labels_sources ls r m rp []). Qed.

(** The scan of a concatenation resumes after the first part unless that
    part stopped it. *)
Lemma scan_labels_app (pre rest : list Label) (r : Rect) (m : Q) (rp : bool) :
  forall acc,
    scan_labels (pre ++ rest) r m rp acc =
    match scan_labels pre r m rp acc with
    | Ok (o, false) => scan_labels rest r m rp o
    | other => other
    end.
Proof.
  induction pre as [|cur pre IH]; intro acc; simpl; trivial.
  destruct (is_candidate cur r); [|apply IH].
  destruct (true_div (theArea cur r) (area cur)) as [q| |]; simpl; trivial.
  destruct (rp && Qlt_bool q 1); trivial.
  destruct (Qle_bool m q); apply IH.
Qed.

Lemma is_candidate_iff (l : Label) (r : Rect) :
  is_candidate l r = true <->
  rxLeft r <= xRight l /\ xLeft l < rxRight r /\
  ryTop r <= yBottom l /\ yTop l < ryBottom r.
Proof.
  unfold is_candidate. rewrite !andb_true_iff, !Z.leb_le, !Z.ltb_lt. tauto.
Qed.

(** Every input label that is kept is a candidate with a non-zero area
    field whose area ratio reaches [minPct], and reaches 1 when partial
    labels are rejected. *)
Lemma scan_sources_sound (ls : list Label) (r : Rect) (m : Q) (rp : bool) :
  forall kept src p,
    scan_sources ls r m rp kept = Ok (src, p) ->
    forall l, In l src ->
      In l kept \/
      (In l ls /\ is_candidate l r = true /\ area l <> 0 /\
       (m <= inject_Z (theArea l r) / inject_Z (area l))%Q /\
       (rp = true -> (1 <= inject_Z (theArea l r) / inject_Z (area l))%Q)).
Proof.
  induction ls as [|cur rest IH]; intros kept src p H l Hl; simpl in H.
  - left. congruence.
  - destruct (is_candidate cur r) eqn:Hc.
    + unfold true_div in H. destruct (Z.eqb_spec (area cur) 0) as [|Ha];
        [discriminate|]. simpl in H.
      destruct (rp && Qlt_bool _ 1) eqn:Hp.
      * left. congruence.
      * destruct (Qle_bool m _) eqn:Hm.
        -- destruct (IH _ _ _ H l Hl) as [Hin|Hin].
           ++ apply in_app_or in Hin. destruct Hin as [Hin|[<-|[]]]; [now left|].
              right. repeat split; trivial; [now left|now apply Qle_bool_iff|].
              intros ->. simpl in Hp. now apply Qlt_bool_false_iff.
           ++ right. destruct Hin as (? & ?). split; [now right|trivial].
        -- destruct (IH _ _ _ H l Hl) as [Hin|Hin]; [now left|].
           right. destruct Hin as (? & ?). split; [now right|trivial].
    + destruct (IH _ _ _ H l Hl) as [Hin|Hin]; [now left|].
      right. destruct Hin as (? & ?). split; [now right|trivial].
Qed.

(** The clipped box of a candidate lies in the tile. *)
Lemma clipped_within_tile (l : Label) (r : Rect) :
  rect_ordered r -> ordered l -> is_candidate l r = true ->
  within_tile r (clipped l r).
Proof.
  intros [Hrx Hry] [Hlx Hly] Hc. apply is_candidate_iff in Hc.
  unfold within_tile, clipped, theArea, lxLeft, lxRight, lyTop, lyBottom; simpl.
  repeat split; lia.
Qed.

(** The clipped copy of a proper label contained in the rectangle is the
    label translated, and the label is a candidate of area ratio 1. *)
Lemma clipped_contained (l : Label) (r : Rect) :
  proper l -> area_invariant l -> contained l r ->
  is_candidate l r = true /\ clipped l r = translate r l /\
  theArea l r = area l /\ area l <> 0.
Proof.
  intros [Hx Hy] Ha (H1 & H2 & H3 & H4). unfold area_invariant in Ha.
  assert (Hc : is_candidate l r = true) by (apply is_candidate_iff; lia).
  assert (Hxl : lxLeft l r = xLeft l - rxLeft r) by (unfold lxLeft; lia).
  assert (Hxr : lxRight l r = xRight l - rxLeft r) by (unfold lxRight; lia).
  assert (Hyt : lyTop l r = yTop l - ryTop r) by (unfold lyTop; lia).
  assert (Hyb : lyBottom l r = yBottom l - ryTop r) by (unfold lyBottom; lia).
  assert (Hta : theArea l r = area l).
  { unfold theArea. rewrite Hxl, Hxr, Hyt, Hyb, Ha. ring. }
  repeat split; trivial.
  - unfold clipped, translate. now rewrite Hxl, Hxr, Hyt, Hyb, Hta.
  - rewrite Ha. intro E. apply Z.mul_eq_0 in E. lia.
Qed.

(** A candidate whose box shares no pixel with the rectangle has a clipped
    area of zero. *)
Lemma zero_overlap_area (l : Label) (r : Rect) :
  rect_ordered r -> ordered l -> is_candidate l r = true ->
  zero_overlap l r -> theArea l r = 0.
Proof.
  intros [Hrx Hry] [Hlx Hly] Hc Hz. apply is_candidate_iff in Hc.
  destruct (Z.eq_dec (theArea l r) 0) as [|Hne]; trivial.
  exfalso. apply (Hz (Z.max (xLeft l) (rxLeft r)) (Z.max (yTop l) (ryTop r))).
  unfold theArea, lxLeft, lxRight, lyTop, lyBottom in Hne.
  assert (Z.min (rxRight r - rxLeft r) (xRight l - rxLeft r)
          - Z.max 0 (xLeft l - rxLeft r) <> 0)
    by (intro E; apply Hne; rewrite E; ring).
  assert (Z.min (ryBottom r - ryTop r) (yBottom l - ryTop r)
          - Z.max 0 (yTop l - ryTop r) <> 0)
    by (intro E; apply Hne; rewrite E; ring).
  unfold in_box, in_rect. lia.
Qed.

(** With [rejectPartial], the scan stops at the first candidate of area
    ratio below 1 that it reaches, whatever follows. *)
Lemma short_circuit (pre post : list Label) (lab : Label) (r : Rect) (m : Q)
      (o : list Label) :
  get_labels_in_rectangle pre r m true = Ok (o, false) ->
  is_candidate lab r = true -> area lab <> 0 ->
  (inject_Z (theArea lab r) / inject_Z (area lab) < 1)%Q ->
  get_labels_in_rectangle (pre ++ lab :: post) r m true = Ok (o, true).
Proof.
  intros Hpre Hc Ha Hlt. unfold get_labels_in_rectangle in *.
  rewrite scan_labels_app, Hpre. simpl. rewrite Hc, (true_div_ok _ _ Ha). simpl.
  apply Qlt_bool_iff in Hlt. now rewrite Hlt.
Qed.

(** A list of proper labels contained in the rectangle is returned whole,
    translated, and no label is partial. *)
Lemma clip_all_contained (ls : list Label) (r : Rect) (m : Q) (rp : bool) :
  (m <= 1)%Q ->
  Forall (fun l => proper l /\ area_invariant l /\ contained l r) ls ->
  get_labels_in_rectangle ls r m rp = Ok (map (translate r) ls, false).
Proof.
  intros Hm H. unfold get_labels_in_rectangle.
  enough (G : forall acc, scan_labels ls r m rp acc
                          = Ok (acc ++ map (translate r) ls, false))
    by apply (G []).
  induction H as [|l ls (Hp & Ha & Hin) _ IH]; intro acc; simpl.
  - now rewrite app_nil_r.
  - destruct (clipped_contained l r Hp Ha Hin) as (Hc & Hcl & Hta & Hne).
    rewrite Hc, (true_div_ok _ _ Hne), Hta. simpl.
    assert (E : Qlt_bool (inject_Z (area l) / inject_Z (area l)) 1 = false).
    { apply Qlt_bool_false_iff. rewrite (ratio_self _ Hne). apply Qle_refl. }
    assert (E' : Qle_bool m (inject_Z (area l) / inject_Z (area l)) = true).
    { apply Qle_bool_iff. now rewrite (ratio_self _ Hne). }
    rewrite E, E', andb_false_r, IH, Hcl, <- app_assoc. reflexivity.
Qed.

End ClipFacts.

Module ClipClaims.
Import Util Props ClipFacts.

(** The two scenarios of the clip. *)
Example clip_contained_scenario :
  get_labels_in_rectangle [mkLabel 0 100 100 200 200 10000]
                          (mkRect 50 50 250 250) (1 # 2) false
  = Ok ([mkLabel 0 50 50 150 150 10000], false).
Proof. reflexivity. Qed.

Example clip_partial_scenario :
  get_labels_in_rectangle [mkLabel 0 100 100 200 200 10000]
                          (mkRect 150 150 350 350) (1 # 2) true
  = Ok ([], true).
Proof. reflexivity. Qed.

(** C3.  With [rejectPartial] the scan is meant to stop at the first
    candidate of area ratio below 1 and to return [isPartial = True]
    ([short_circuit] proves it for a scan that reaches that candidate).
    The scan does not reach it when an earlier candidate has a zero area
    field: on the labels [(0,10,10,10,10,0)], [(0,100,100,200,200,10000)]
    and the rectangle [(0,0,150,150)], whose second label is a candidate of
    area ratio 1/4, the quotient [theArea/curLabel[5]] of the first label
    raises [ZeroDivisionError] and nothing is returned. *)
Theorem C3_zero_area_before_partial_raises :
  let l1 := mkLabel 0 10 10 10 10 0 in
  let l2 := mkLabel 0 100 100 200 200 10000 in
  let r := mkRect 0 0 150 150 in
  is_candidate l2 r = true /\
  true_div (theArea l2 r) (area l2) = Ok (2500 # 10000) /\
  Qlt_bool (2500 # 10000) 1 = true /\
  get_labels_in_rectangle [l2] r (1 # 2) true = Ok ([], true) /\
  get_labels_in_rectangle [l1; l2] r (1 # 2) true = Raise ZeroDivisionError.
Proof. cbv zeta. repeat split. Qed.

(** C5.  A label that satisfies the area invariant and lies inside the
    rectangle is meant to be kept, translated, with [isPartial = False]
    ([clip_all_contained] proves it for labels of positive width and
    height).  The label [(0,5,5,5,5,0)] satisfies the invariant and lies
    inside the rectangle [(0,0,10,10)], and the clip raises
    [ZeroDivisionError] on it. *)
Theorem C5_zero_area_contained_raises :
  let l := mkLabel 0 5 5 5 5 0 in
  let r := mkRect 0 0 10 10 in
  ordered l /\ area_invariant l /\ contained l r /\
  get_labels_in_rectangle [l] r (1 # 2) false = Raise ZeroDivisionError.
Proof.
  cbv zeta. unfold ordered, area_invariant, contained; simpl.
  repeat split; lia.
Qed.

(** C6, as stated, fails: the box of the label [(0,0,0,50,50,2500)] shares
    no pixel with the rectangle [(50,0,150,100)], it only touches its left
    edge, and with [minPct = 0] the label is kept, with a clipped area
    of 0. *)
Lemma C6_touching_label_kept :
  let l := mkLabel 0 0 0 50 50 2500 in
  let r := mkRect 50 0 150 100 in
  zero_overlap l r /\ ordered l /\ area_invariant l /\ rect_ordered r /\
  sources [l] r 0 false = Ok ([l], false) /\
  get_labels_in_rectangle [l] r 0 false = Ok ([mkLabel 0 0 0 0 50 0], false).
Proof.
  cbv zeta. repeat split; try (simpl; lia).
  intros x y. unfold in_box, in_rect; simpl. lia.
Qed.

(** C6, amended.  For every label whose box shares no pixel with the
    rectangle, every [minPct] and either value of [rejectPartial] other
    than [minPct <= 0] with [rejectPartial] false, a clip that returns does
    not keep the label: the output list is the clipped copy of the kept
    input labels, and the label is not among them.  (Rectangle and label
    are ordered: left <= right, top <= bottom.) *)
Theorem C6_zero_overlap_excluded (ls : list Label) (r : Rect) (m : Q)
        (rp : bool) (lab : Label) (out : list Label) (p : bool) :
  rect_ordered r -> ordered lab -> zero_overlap lab r ->
  (0 < m)%Q \/ rp = true ->
  get_labels_in_rectangle ls r m rp = Ok (out, p) ->
  exists src,
    sources ls r m rp = Ok (src, p) /\
    out = map (fun l => clipped l r) src /\
    ~ In lab src.
Proof.
  intros Hr Hl Hz Hm H. rewrite clip_sources in H.
  destruct (sources ls r m rp) as [[src p']| |] eqn:Hs; simpl in H;
    try discriminate.
  injection H as <- <-. exists src. repeat split; trivial.
  intro Hin. unfold sources in Hs.
  destruct (scan_sources_sound _ _ _ _ _ _ _ Hs lab Hin)
    as [[]|(_ & Hc & _ & Hq & Hp)].
  rewrite (zero_overlap_area _ _ Hr Hl Hc Hz), ratio_zero in Hq, Hp.
  destruct Hm as [Hm|Hm].
  - exact (Qlt_not_le _ _ Hm Hq).
  - specialize (Hp Hm). revert Hp. apply Qlt_not_le. reflexivity.
Qed.

Lemma C6_zero_overlap_excluded_witness :
  let lab := mkLabel 0 0 0 50 50 2500 in
  let good := mkLabel 0 60 10 80 30 400 in
  let r := mkRect 50 0 150 100 in
  get_labels_in_rectangle [good; lab] r 0 true
    = Ok ([mkLabel 0 10 10 30 30 400], true) /\
  exists src,
    sources [good; lab] r 0 true = Ok (src, true) /\
    [mkLabel 0 10 10 30 30 400] = map (fun l => clipped l r) src /\
    ~ In lab src.
Proof.
  cbv zeta. split; [reflexivity|].
  apply (C6_zero_overlap_excluded
           [mkLabel 0 60 10 80 30 400; mkLabel 0 0 0 50 50 2500]
           (mkRect 50 0 150 100) 0 true (mkLabel 0 0 0 50 50 2500)).
  - unfold rect_ordered; simpl; lia.
  - unfold ordered; simpl; lia.
  - intros x y. unfold in_box, in_rect; simpl. lia.
  - right. reflexivity.
  - reflexivity.
Defined.

(** A label that fails the candidate test is not kept, whatever [minPct]
    is. *)
Lemma non_candidate_excluded (ls : list Label) (r : Rect) (m : Q)
      (rp : bool) (lab : Label) (src : list Label) (p : bool) :
  is_candidate lab r = false ->
  sources ls r m rp = Ok (src, p) -> ~ In lab src.
Proof.
  intros Hc Hs Hin.
  destruct (scan_sources_sound _ _ _ _ _ _ _ Hs lab Hin)
    as [[]|(_ & Hc' & _)].
  congruence.
Qed.

(** C10.  For every rectangle (left <= right, top <= bottom) and every
    list of labels with [xLeft <= xRight] and [yTop <= yBottom], every
    label of the list that the clip returns lies in the tile,
    [0 <= lxLeft <= lxRight <= xRight - xLeft] and
    [0 <= lyTop <= lyBottom <= yBottom - yTop], and its area field is
    [(lxRight - lxLeft) * (lyBottom - lyTop)]; the list returned with
    [isPartial = True] included. *)
Theorem C10_output_within_tile (ls : list Label) (r : Rect) (m : Q)
        (rp : bool) (out : list Label) (p : bool) :
  rect_ordered r -> Forall ordered ls ->
  get_labels_in_rectangle ls r m rp = Ok (out, p) ->
  Forall (within_tile r) out.
Proof.
  intros Hr Hls H. rewrite clip_sources in H.
  destruct (sources ls r m rp) as [[src p']| |] eqn:Hs; simpl in H;
    try discriminate.
  injection H as <- <-. apply Forall_forall. intros c Hc.
  apply in_map_iff in Hc. destruct Hc as (l & <- & Hin).
  destruct (scan_sources_sound _ _ _ _ _ _ _ Hs l Hin)
    as [[]|(Hl & Hcand & _)].
  apply clipped_within_tile; trivial.
  rewrite Forall_forall in Hls. now apply Hls.
Qed.

Lemma C10_output_within_tile_witness :
  let ls := [mkLabel 0 60 10 80 30 400; mkLabel 0 100 50 200 150 10000] in
  let r := mkRect 50 0 150 100 in
  get_labels_in_rectangle ls r (1 # 2) true
    = Ok ([mkLabel 0 10 10 30 30 400], true) /\
  Forall (within_tile r) [mkLabel 0 10 10 30 30 400].
Proof.
  cbv zeta. split; [reflexivity|].
  apply (C10_output_within_tile
           [mkLabel 0 60 10 80 30 400; mkLabel 0 100 50 200 150 10000]
           (mkRect 50 0 150 100) (1 # 2) true _ true).
  - unfold rect_ordered; simpl; lia.
  - repeat constructor; simpl; lia.
  - reflexivity.
Defined.

End ClipClaims.

(** ** The conversion: [convert_objdetect_labels] *)

Module ConvertFacts.
Import Util Props.





Lemma float_div_ok (a : Q) (b : Z) :
  b <> 0 -> float_div a b = Ok (a / inject_Z b)%Q.
Proof.
  intro H. unfold float_div. destruct (Z.eqb_spec b 0); [contradiction|reflexivity].
Qed.





(** The conversion of [(1, 0.3, 0.7, 0.1, 0.2)] on an image of 641 by 481
    pixels and back, float by float as Python prints them, and the division
    by zero on an image one pixel wide. *)
Example binary64_conversion_sample :
  let f m e := Binary64.Float (S754_finite false m e) in
  let l := Binary64.mkRow (Binary64.Int 1)
             (f 5404319552844595%positive (-54)) (f 6305039478318694%positive (-53))
             (f 7205759403792794%positive (-56)) (f 7205759403792794%positive (-55)) in
  Binary64.convert_objdetect_labels [l] 641 481 0
  = Ok (Binary64.AbsoluteLabels [mkLabel 1 160 288 224 384 6166]) /\
  Binary64.convert_objdetect_labels
    [Binary64.row_of_label (mkLabel 1 160 288 224 384 6166)] 641 481 1
  = Ok (Binary64.YoloLabels [l]) /\
  Binary64.convert_objdetect_labels
    [Binary64.row_of_label (mkLabel 1 160 288 224 384 6166)] 1 481 1
  = Raise ZeroDivisionError.
Proof. cbv zeta. split; [reflexivity|]. split; reflexivity. Qed.



End ConvertFacts.

(** ** The transform: [transform_image] *)

Module TransformFacts.
Import Util.

Section Flips.
Context {Pixel : Type}.

Lemma fliplr_flipud (theImage : Image Pixel) :
  flipud (fliplr theImage) = fliplr (flipud theImage).
Proof.
  unfold flipud, fliplr; simpl. f_equal. symmetry. apply map_rev.
Qed.

Lemma flip_labels_commute (imgWidth imgHeight : Z) (theLabels : list Label) :
  map (vflip_label imgHeight) (map (hflip_label imgWidth) theLabels)
  = map (hflip_label imgWidth) (map (vflip_label imgHeight) theLabels).
Proof.
  rewrite !map_map. apply map_ext. intros [c xl yt xr yb a]. reflexivity.
Qed.

Lemma hflip_vflip (s : Image Pixel * list Label) :
  vflip (hflip s) = hflip (vflip s).
Proof.
  destruct s as [theImage theLabels]. unfold vflip, hflip; simpl.
  rewrite fliplr_flipud. f_equal. apply flip_labels_commute.
Qed.

End Flips.

Section Transform.
Context {Pixel : Type} {ops : PixelOps Pixel}.

(** C7.  [transform_image] with [flipValue = 3] is [transform_image] without
    flip on the tile and labels flipped horizontally then vertically, and
    flipping horizontally then vertically equals flipping vertically then
    horizontally, on the pixels and on the labels.  The horizontal flip
    reverses every row of pixels and maps the x-coordinates of a label to
    [width-1-xRight] and [width-1-xLeft]; the vertical flip reverses the
    rows and maps the y-coordinates alike with the height. *)
Theorem C7_flips_commute (theImage : Image Pixel) (theLabels : list Label)
        (brightValue brightScale sigmaMultiplier xRelCenter yRelCenter : Q) :
  let hv := vflip (hflip (theImage, theLabels)) in
  let vh := hflip (vflip (theImage, theLabels)) in
  transform_image theImage theLabels 3 brightValue brightScale
                  sigmaMultiplier xRelCenter yRelCenter
  = transform_image (fst hv) (snd hv) 0 brightValue brightScale
                    sigmaMultiplier xRelCenter yRelCenter /\
  hv = vh /\
  pixels (fst hv) = rev (map (@rev Pixel) (pixels theImage)) /\
  pixels (fst vh) = map (@rev Pixel) (rev (pixels theImage)) /\
  snd hv =
  map (fun l => mkLabel (cls l) (shape1 theImage - 1 - xRight l)
                        (shape0 theImage - 1 - yBottom l)
                        (shape1 theImage - 1 - xLeft l)
                        (shape0 theImage - 1 - yTop l) (area l))
      theLabels.
Proof.
  cbv zeta. repeat split.
  - apply hflip_vflip.
  - unfold vflip, hflip; simpl. rewrite map_map. reflexivity.
Qed.

End Transform.

(** C8.  The labels that [transform_image] returns are those of the flip
    stage: they are the same whatever the brightness and vignette
    parameters and whatever the pixel arithmetic is, and with
    [flipValue = 0] they are the input labels. *)
Theorem C8_labels_depend_on_flips (Pixel : Type) (ops ops' : PixelOps Pixel)
        (theImage : Image Pixel) (theLabels : list Label) (flipValue : Z)
        (brightValue brightScale sigmaMultiplier xRelCenter yRelCenter : Q)
        (brightValue' brightScale' sigmaMultiplier' xRelCenter' yRelCenter' : Q) :
  snd (@transform_image Pixel ops theImage theLabels flipValue brightValue
         brightScale sigmaMultiplier xRelCenter yRelCenter)
  = snd (flips theImage theLabels flipValue) /\
  snd (@transform_image Pixel ops theImage theLabels flipValue brightValue
         brightScale sigmaMultiplier xRelCenter yRelCenter)
  = snd (@transform_image Pixel ops' theImage theLabels flipValue brightValue'
           brightScale' sigmaMultiplier' xRelCenter' yRelCenter') /\
  snd (@transform_image Pixel ops theImage theLabels 0 brightValue
         brightScale sigmaMultiplier xRelCenter yRelCenter)
  = theLabels.
Proof. repeat split. Qed.

End TransformFacts.

(** ** The sampler: [MosaicDataSet.get_image] *)

Module SamplerFacts.
Import MosaicDataSet.

(** *** The generator monad *)

Lemma bind_ok {A B : Type} (c : Rand A) (k : A -> Rand B) (tape tape' : Tape)
      (a : A) :
  c tape = Ok (a, tape') -> (x <- c ;; k x) tape = k a tape'.
Proof. intro H. simpl. now rewrite H. Qed.

Lemma bind_raise {A B : Type} (c : Rand A) (k : A -> Rand B) (tape : Tape)
      (e : exn) :
  c tape = Raise e -> (x <- c ;; k x) tape = Raise e.
Proof. intro H. simpl. now rewrite H. Qed.

Lemma bind_inv {A B : Type} (c : Rand A) (k : A -> Rand B) (tape : Tape)
      (e : exn) :
  (x <- c ;; k x) tape = Raise e ->
  c tape = Raise e \/ exists a tape', c tape = Ok (a, tape') /\ k a tape' = Raise e.
Proof.
  simpl. destruct (c tape) as [[a tape']| |]; intro H;
    [right; now exists a, tape'|left; congruence|discriminate].
Qed.

(** *** Storing trials *)

Lemma numLabels_nonneg (tr : Trial) : 0 <= numLabels tr.
Proof. unfold numLabels. lia. Qed.

Lemma store_initial (tr : Trial) : store initial tr = recorded tr.
Proof. unfold store. simpl. now rewrite orb_true_r. Qed.

Lemma store_recorded (b tr : Trial) :
  store (recorded b) tr =
  if (numLabels b <? numLabels tr) || (numLabels b =? 0)
  then recorded tr else recorded b.
Proof. reflexivity. Qed.

(** After a first stored trial the locals hold one of the trials seen, and
    none of them has more labels. *)
Lemma fold_store_recorded (trs : list Trial) :
  forall b,
  exists best,
    In best (b :: trs) /\
    fold_left store trs (recorded b) = recorded best /\
    forall t, In t (b :: trs) -> numLabels t <= numLabels best.
Proof.
  induction trs as [|t trs IH]; intro b.
  - exists b. simpl. repeat split; [now left|]. intros t [<-|[]]. lia.
  - simpl fold_left. rewrite store_recorded.
    pose proof (numLabels_nonneg t) as Ht.
    destruct ((numLabels b <? numLabels t) || (numLabels b =? 0)) eqn:E.
    + destruct (IH t) as (best & Hin & Hf & Hmax).
      exists best. repeat split; trivial.
      * destruct Hin as [<-|Hin]; [right; now left|right; now right].
      * assert (numLabels b <= numLabels t).
        { apply orb_true_iff in E. destruct E as [E|E]; lia. }
        intros t' [<-|[<-|Hin']].
        -- specialize (Hmax t (or_introl eq_refl)). lia.
        -- apply Hmax. now left.
        -- apply Hmax. now right.
    + destruct (IH b) as (best & Hin & Hf & Hmax).
      exists best. repeat split; trivial.
      * destruct Hin as [<-|Hin]; [now left|right; now right].
      * apply orb_false_iff in E. destruct E as [E _]. apply Z.ltb_ge in E.
        intros t' [<-|[<-|Hin']].
        -- apply Hmax. now left.
        -- specialize (Hmax b (or_introl eq_refl)). lia.
        -- apply Hmax. now right.
Qed.

Lemma fold_store_initial (trs : list Trial) :
  trs <> [] ->
  exists best,
    In best trs /\
    fold_left store trs initial = recorded best /\
    forall t, In t trs -> numLabels t <= numLabels best.
Proof.
  destruct trs as [|b trs]; [congruence|]. intros _.
  simpl fold_left. rewrite store_initial. apply fold_store_recorded.
Qed.

(** The locals reached from [initial] are [initial] or a stored trial. *)
Lemma fold_store_shape (trs : list Trial) :
  fold_left store trs initial = initial \/
  exists best, fold_left store trs initial = recorded best.
Proof.
  destruct trs as [|b trs]; [now left|right].
  destruct (fold_store_initial (b :: trs)) as (best & _ & H & _); [congruence|].
  now exists best.
Qed.

(** C1, as stated, fails: on a mosaic without labels the first trial, with
    no label, is stored as the best one, and the second trial, with no
    label either, so not more than the best, replaces it. *)
Lemma C1_zero_label_best_replaced :
  let self := Sample.dataset [] 1 2 false in
  let first := mkTrial (mkRect 3 4 13 14) [] in
  let second := mkTrial (mkRect 7 8 17 18) [] in
  iterate self 1 initial [3; 4; 7; 8] = Ok (recorded first, [7; 8]) /\
  numLabels second <= maxLabels (recorded first) /\
  bestRect (recorded first) = Some (mkRect 3 4 13 14) /\
  store (recorded first) second = recorded second /\
  iterate self 2 initial [3; 4; 7; 8] = Ok (recorded second, []) /\
  bestRect (recorded second) = Some (mkRect 7 8 17 18).
Proof. cbv zeta. repeat split. discriminate. Qed.

(** C1, amended.  In the locals reached after any sequence of trials, the
    best count is never negative; a trial is stored as the new best when
    its label count exceeds the best count or the best count is zero, which
    is the case when no best is stored yet and also when the best stored
    has no label; it leaves the locals unchanged when the best count is
    positive and its label count does not exceed it. *)
Theorem C1_store_rule (seen : list Trial) (tr : Trial) :
  let st := fold_left store seen initial in
  0 <= maxLabels st /\
  (bestRect st = None -> maxLabels st = 0) /\
  (maxLabels st < numLabels tr \/ maxLabels st = 0 -> store st tr = recorded tr) /\
  (0 < maxLabels st /\ numLabels tr <= maxLabels st -> store st tr = st).
Proof.
  cbv zeta. destruct (fold_store_shape seen) as [->|(best & ->)].
  - split; [simpl; lia|]. split; [reflexivity|]. split.
    + intros _. apply store_initial.
    + simpl. lia.
  - pose proof (numLabels_nonneg best).
    split; [exact H|]. split; [discriminate|]. split.
    + rewrite store_recorded. simpl. intros [H'|H'].
      * apply Z.ltb_lt in H'. now rewrite H'.
      * apply Z.eqb_eq in H'. now rewrite H', orb_true_r.
    + rewrite store_recorded. simpl. intros [H1 H2].
      destruct (Z.ltb_spec (numLabels best) (numLabels tr)); [lia|].
      destruct (Z.eqb_spec (numLabels best) 0); [lia|reflexivity].
Qed.

(** *** Where exceptions come from *)

Lemma scan_labels_raises (ls : list Label) (r : Rect) (m : Q) (rp : bool) :
  forall acc e,
    Util.scan_labels ls r m rp acc = Raise e -> e = ZeroDivisionError.
Proof.
  induction ls as [|cur rest IH]; intros acc e H; simpl in H; [discriminate|].
  destruct (Util.is_candidate cur r); [|now apply IH in H].
  unfold Util.true_div in H. destruct (area cur =? 0); simpl in H; [congruence|].
  destruct (rp && Qlt_bool _ 1); [discriminate|].
  destruct (Qle_bool m _); now apply IH in H.
Qed.

Lemma randint_raises (low high : Q) (tape : Tape) (e : exn) :
  randint low high tape = Raise e -> e = ValueError.
Proof.
  unfold randint. destruct (Util.py_int low <? Util.py_int high);
    [destruct tape; discriminate|congruence].
Qed.

Lemma randint_consumes (low high : Q) (tape tape' : Tape) (x : Z) :
  randint low high tape = Ok (x, tape') -> (length tape' < length tape)%nat.
Proof.
  unfold randint. destruct (Util.py_int low <? Util.py_int high);
    [|discriminate].
  destruct tape as [|raw tape]; [discriminate|]. intros [= _ <-]. simpl. lia.
Qed.

Lemma randint_ok (low high : Q) (raw : Z) (tape : Tape) :
  Util.py_int low < Util.py_int high ->
  randint low high (raw :: tape)
  = Ok (Util.py_int low + raw mod (Util.py_int high - Util.py_int low), tape).
Proof. intro H. unfold randint. apply Z.ltb_lt in H. now rewrite H. Qed.

Lemma to_yolo_raises (imgWidth imgHeight : Z) (a : Util.Row) (e : exn) :
  Util.to_yolo imgWidth imgHeight a = Raise e -> e = ZeroDivisionError.
Proof.
  unfold Util.to_yolo, Util.float_div.
  destruct (imgWidth - 1 =? 0); simpl; [congruence|].
  destruct (imgHeight - 1 =? 0); simpl; [congruence|discriminate].
Qed.

Lemma to_yolo_ok (imgWidth imgHeight : Z) (a : Util.Row) :
  imgWidth <> 1 -> imgHeight <> 1 ->
  exists l, Util.to_yolo imgWidth imgHeight a = Ok l.
Proof.
  intros HW HH. unfold Util.to_yolo, Util.float_div.
  destruct (Z.eqb_spec (imgWidth - 1) 0); [lia|].
  destruct (Z.eqb_spec (imgHeight - 1) 0); [lia|]. simpl. eauto.
Qed.

Lemma comprehension_to_yolo_raises (imgWidth imgHeight : Z) (l : list Util.Row)
      (e : exn) :
  Util.comprehension (Util.to_yolo imgWidth imgHeight) l = Raise e ->
  e = ZeroDivisionError.
Proof.
  induction l as [|a l IH]; simpl; [discriminate|].
  destruct (Util.to_yolo imgWidth imgHeight a) eqn:Ea; simpl;
    [|intros [= <-]; now apply to_yolo_raises in Ea|discriminate].
  destruct (Util.comprehension _ l); simpl; [discriminate| |discriminate].
  intro H. apply IH. congruence.
Qed.

Lemma comprehension_to_yolo_ok (imgWidth imgHeight : Z) (l : list Util.Row) :
  imgWidth <> 1 -> imgHeight <> 1 ->
  exists out, Util.comprehension (Util.to_yolo imgWidth imgHeight) l = Ok out.
Proof.
  intros HW HH. induction l as [|a l (out & IH)]; simpl; [now exists []|].
  destruct (to_yolo_ok imgWidth imgHeight a HW HH) as (b & ->). simpl.
  rewrite IH. simpl. eauto.
Qed.

Lemma convert_raises (theLabels : Util.Labels) (imgWidth imgHeight conv : Z)
      (e : exn) :
  Util.convert_objdetect_labels theLabels imgWidth imgHeight conv = Raise e ->
  e <> UnboundLocalError.
Proof.
  unfold Util.convert_objdetect_labels.
  destruct (conv =? 0); [discriminate|].
  destruct (conv =? 1); [|intros [= <-]; discriminate].
  destruct (Util.comprehension _ _) eqn:E; simpl; try discriminate.
  intros [= <-]. apply comprehension_to_yolo_raises in E. subst. discriminate.
Qed.

Lemma convert_ok (theLabels : Util.Labels) (imgWidth imgHeight conv : Z) :
  conv = 0 \/ (conv = 1 /\ imgWidth <> 1 /\ imgHeight <> 1) ->
  exists out,
    Util.convert_objdetect_labels theLabels imgWidth imgHeight conv = Ok out.
Proof.
  unfold Util.convert_objdetect_labels. intros [->|(-> & HW & HH)]; simpl.
  - eauto.
  - destruct (comprehension_to_yolo_ok imgWidth imgHeight (Util.rows theLabels)
                                       HW HH) as (out & ->).
    simpl. eauto.
Qed.

Section Sampler.
Context {Pixel : Type} {ops : Util.PixelOps Pixel}.
Variable self : MosaicDataSet.t Pixel.

Lemma draw_raises (tape : Tape) (e : exn) :
  draw self tape = Raise e -> e <> UnboundLocalError.
Proof.
  unfold draw. intro H.
  apply bind_inv in H. destruct H as [H|(x & t1 & _ & H)];
    [apply randint_raises in H; subst; discriminate|].
  apply bind_inv in H. destruct H as [H|(y & t2 & _ & H)];
    [apply randint_raises in H; subst; discriminate|].
  apply bind_inv in H. destruct H as [H|([o p] & t3 & _ & H)];
    [|discriminate].
  unfold lift, Util.get_labels_in_rectangle in H.
  destruct (Util.scan_labels _ _ _ _ _) eqn:E; try discriminate.
  apply scan_labels_raises in E. injection H as <-. subst. discriminate.
Qed.

Lemma search_raises (fuel : nat) :
  forall tape e, search self fuel tape = Raise e -> e <> UnboundLocalError.
Proof.
  induction fuel as [|fuel IH]; intros tape e H; [discriminate|].
  simpl in H. destruct (draw self tape) as [[[tr b] t1]| |] eqn:E;
    try discriminate.
  - destruct b; [now apply IH in H|discriminate].
  - injection H as <-. now apply draw_raises in E.
Qed.

Lemma trial_raises (tape : Tape) (e : exn) :
  trial self tape = Raise e -> e <> UnboundLocalError.
Proof. apply search_raises. Qed.

Lemma iterate_raises (n : nat) :
  forall st tape e, iterate self n st tape = Raise e -> e <> UnboundLocalError.
Proof.
  induction n as [|n IH]; intros st tape e H; [discriminate|].
  simpl in H. destruct (trial self tape) as [[tr t1]| |] eqn:E;
    try discriminate.
  - destruct (_minLabels self <=? numLabels tr); [discriminate|].
    now apply IH in H.
  - injection H as <-. now apply trial_raises in E.
Qed.

(** The locals after the loop are those before it or a stored trial. *)
Lemma iterate_stores (n : nat) :
  forall st tape st' tape',
    iterate self n st tape = Ok (st', tape') ->
    exists trs, st' = fold_left store trs st.
Proof.
  induction n as [|n IH]; intros st tape st' tape' H; simpl in H.
  - injection H as <- _. now exists [].
  - destruct (trial self tape) as [[tr t1]| |]; try discriminate.
    destruct (_minLabels self <=? numLabels tr).
    + injection H as <- _. now exists [tr].
    + apply IH in H. destruct H as (trs & ->). now exists (tr :: trs).
Qed.

(** When no trial reaches [_minLabels] the loop stores every trial. *)
Lemma iterate_exhausted (n : nat) :
  forall st tape trs tape',
    trials self n tape = Ok (trs, tape') ->
    Forall (fun tr => numLabels tr < _minLabels self) trs ->
    iterate self n st tape = Ok (fold_left store trs st, tape').
Proof.
  induction n as [|n IH]; intros st tape trs tape' H Hf; simpl in H |- *.
  - now injection H as <- <-.
  - destruct (trial self tape) as [[tr t1]| |]; try discriminate.
    destruct (trials self n t1) as [[trs' t2]| |] eqn:E; try discriminate.
    injection H as <- <-. inversion Hf as [|? ? Hlt Hf']; subst.
    destruct (Z.leb_spec (_minLabels self) (numLabels tr)); [lia|].
    simpl fold_left. now apply IH.
Qed.

Lemma trials_length (n : nat) :
  forall tape trs tape',
    trials self n tape = Ok (trs, tape') -> length trs = n.
Proof.
  induction n as [|n IH]; intros tape trs tape' H; simpl in H.
  - now injection H as <- _.
  - destruct (trial self tape) as [[tr t1]| |]; try discriminate.
    destruct (trials self n t1) as [[trs' t2]| |] eqn:E; try discriminate.
    injection H as <- _. simpl. f_equal. now apply IH in E.
Qed.

(** A pass of the [while] loop that completes has drawn. *)
Lemma draw_consumes (tape tape' : Tape) (x : Trial * bool) :
  draw self tape = Ok (x, tape') -> (length tape' < length tape)%nat.
Proof.
  unfold draw. simpl.
  destruct (randint _ _ tape) as [[xLeft t1]| |] eqn:E1; try discriminate.
  destruct (randint _ _ t1) as [[yTop t2]| |] eqn:E2; try discriminate.
  apply randint_consumes in E1. apply randint_consumes in E2.
  unfold lift. destruct (Util.get_labels_in_rectangle _ _ _ _) as [[o p]| |];
    [|discriminate|discriminate].
  intros [= _ <-]. lia.
Qed.

(** The bound on the passes of the [while] loop is never what ends it: any
    two bounds above the number of draws at hand give the same run. *)
Lemma search_fuel (fuel : nat) :
  forall fuel' tape,
    (length tape < fuel)%nat -> (length tape < fuel')%nat ->
    search self fuel tape = search self fuel' tape.
Proof.
  induction fuel as [|fuel IH]; intros fuel' tape H H'; [lia|].
  destruct fuel' as [|fuel']; [lia|]. simpl.
  destruct (draw self tape) as [[[tr b] t1]| |] eqn:E; trivial.
  destruct b; trivial. apply draw_consumes in E. apply IH; lia.
Qed.

Lemma trial_fuel (fuel : nat) (tape : Tape) :
  (length tape < fuel)%nat -> search self fuel tape = trial self tape.
Proof. intro H. unfold trial. apply search_fuel; lia. Qed.

Lemma iterate_defined (n : nat) (tape tape' : Tape) (st : Locals) :
  (1 <= n)%nat ->
  iterate self n initial tape = Ok (st, tape') ->
  exists best, st = recorded best.
Proof.
  destruct n as [|n]; [lia|]. intros _ H. simpl in H.
  destruct (trial self tape) as [[tr t1]| |]; try discriminate.
  rewrite store_initial in H.
  destruct (_minLabels self <=? numLabels tr).
  - injection H as <- _. now exists tr.
  - apply iterate_stores in H. destruct H as (trs & ->).
    destruct (fold_store_recorded trs tr) as (best & _ & -> & _).
    now exists best.
Qed.

Lemma lift_ok {A : Type} (c : outcome A) (a : A) (tape : Tape) :
  c = Ok a -> lift c tape = Ok (a, tape).
Proof. now intros ->. Qed.

(** The delivery of a stored trial whose tile has pixels and whose labels
    convert, on the five draws it makes: the flip, the brightness and the
    three parameters of the vignette. *)
Lemma deliver_returns (r : Rect) (ls : list Label) (outUBYTE : bool)
      (lblFormat : Z) (d1 d2 d3 d4 d5 : Z) (tape : Tape) (labels : Util.Labels) :
  let outImage :=
    Util.crop (_theMosaic self) (ryTop r) (ryBottom r) (rxLeft r) (rxRight r) in
  let transformed :=
    Util.transform_image outImage ls (d1 mod 4)
      (Qmake (d2 mod 2 ^ 53) (2 ^ 53)) (_brightScale self)
      (Qmake (d3 mod 2 ^ 53) (2 ^ 53) * (_maxVSigma self - _minVSigma self)
       + _minVSigma self)%Q
      (Qmake (d4 mod 2 ^ 53) (2 ^ 53) * (_maxVX self - _minVX self)
       + _minVX self)%Q
      (Qmake (d5 mod 2 ^ 53) (2 ^ 53) * (_maxVY self - _minVY self)
       + _minVY self)%Q in
  Util.no_pixel outImage = false ->
  Util.convert_objdetect_labels (Util.AbsoluteLabels (snd transformed))
                                (_imgWidth self) (_imgHeight self) lblFormat
  = Ok labels ->
  deliver self r ls outUBYTE lblFormat (d1 :: d2 :: d3 :: d4 :: d5 :: tape)
  = Ok ((if outUBYTE then Util.img_as_ubyte (fst transformed)
         else fst transformed, labels), tape).
Proof.
  cbv zeta. intros Hpix Hconv. unfold deliver.
  rewrite (bind_ok _ _ _ _ _ (randint_ok 0 4 d1 _ eq_refl)).
  change (Util.py_int 0 + d1 mod (Util.py_int 4 - Util.py_int 0))
    with (d1 mod 4).
  rewrite (bind_ok random _ (d2 :: _) _ _ eq_refl).
  rewrite (bind_ok random _ (d3 :: _) _ _ eq_refl).
  rewrite (bind_ok random _ (d4 :: _) _ _ eq_refl).
  rewrite (bind_ok random _ (d5 :: _) _ _ eq_refl).
  unfold Util.call_transform_image. rewrite Hpix.
  rewrite (bind_ok _ _ _ _ _ (lift_ok _ _ tape eq_refl)).
  rewrite (bind_ok _ _ _ _ _ (lift_ok _ _ tape Hconv)).
  reflexivity.
Qed.

Lemma deliver_raises (r : Rect) (ls : list Label) (outUBYTE : bool)
      (lblFormat : Z) (tape : Tape) (e : exn) :
  deliver self r ls outUBYTE lblFormat tape = Raise e -> e <> UnboundLocalError.
Proof.
  unfold deliver. intro H.
  apply bind_inv in H. destruct H as [H|(x1 & t1 & _ & H)];
    [apply randint_raises in H; subst; discriminate|].
  apply bind_inv in H. destruct H as [H|(x2 & t2 & _ & H)];
    [destruct t1; discriminate|].
  apply bind_inv in H. destruct H as [H|(x3 & t3 & _ & H)];
    [destruct t2; discriminate|].
  apply bind_inv in H. destruct H as [H|(x4 & t4 & _ & H)];
    [destruct t3; discriminate|].
  apply bind_inv in H. destruct H as [H|(x5 & t5 & _ & H)];
    [destruct t4; discriminate|].
  apply bind_inv in H. destruct H as [H|(x6 & t6 & _ & H)].
  - unfold lift, Util.call_transform_image in H.
    destruct (Util.no_pixel _); [|discriminate]. injection H as <-. discriminate.
  - apply bind_inv in H. destruct H as [H|(x7 & t7 & _ & H)]; [|discriminate].
    unfold lift in H.
    destruct (Util.convert_objdetect_labels _ _ _ _) eqn:E; try discriminate.
    injection H as <-. now apply convert_raises in E.
Qed.

(** [get_image] once the loop is over. *)
Lemma get_image_after (outUBYTE : bool) (lblFormat : Z) (tape tape1 : Tape)
      (st : Locals) :
  iterate self (Z.to_nat (_maxIter self)) initial tape = Ok (st, tape1) ->
  get_image self outUBYTE lblFormat tape =
  match bestRect st, bestLabels st with
  | Some r, Some ls => deliver self r ls outUBYTE lblFormat tape1
  | _, _ => Raise UnboundLocalError
  end.
Proof.
  intro H. unfold get_image. rewrite (bind_ok _ _ _ _ _ H).
  destruct (bestRect st), (bestLabels st); reflexivity.
Qed.

(** C9.  With [_maxIter >= 1] and a first trial that completes, the first
    pass of the loop stores that trial, the locals after the loop are a
    stored trial, so [bestRect] and [bestLabels] are bound when the pixels
    are extracted, and [get_image] never raises [UnboundLocalError];
    with [_maxIter <= 0] it always does. *)
Theorem C9_best_defined (outUBYTE : bool) (lblFormat : Z) (tape tape1 : Tape)
        (tr : Trial) :
  1 <= _maxIter self ->
  trial self tape = Ok (tr, tape1) ->
  iterate self (Z.to_nat (_maxIter self)) initial tape
  = (if _minLabels self <=? numLabels tr then Ok (recorded tr, tape1)
     else iterate self (Z.to_nat (_maxIter self) - 1) (recorded tr) tape1) /\
  (forall st tape2,
      iterate self (Z.to_nat (_maxIter self)) initial tape = Ok (st, tape2) ->
      exists best, st = recorded best) /\
  get_image self outUBYTE lblFormat tape <> Raise UnboundLocalError /\
  (forall (zero : MosaicDataSet.t Pixel) (tape0 : Tape),
      _maxIter zero <= 0 ->
      get_image zero outUBYTE lblFormat tape0 = Raise UnboundLocalError).
Proof.
  intros Hmax Htr.
  assert (Hn : (1 <= Z.to_nat (_maxIter self))%nat) by lia.
  repeat split.
  - destruct (Z.to_nat (_maxIter self)) as [|n]; [lia|].
    simpl. rewrite Htr, store_initial, Nat.sub_0_r.
    now destruct (_minLabels self <=? numLabels tr).
  - intros st tape2 H. exact (iterate_defined _ _ _ _ Hn H).
  - intro H.
    destruct (iterate self (Z.to_nat (_maxIter self)) initial tape)
      as [[st t1]| |] eqn:E.
    + rewrite (get_image_after _ _ _ _ _ E) in H.
      destruct (iterate_defined _ _ _ _ Hn E) as (best & ->). simpl in H.
      now apply deliver_raises in H.
    + unfold get_image in H. rewrite (bind_raise _ _ _ _ E) in H.
      injection H as ->. now apply iterate_raises in E.
    + unfold get_image in H. simpl in H. rewrite E in H. discriminate.
  - intros zero tape0 Hz. unfold get_image.
    replace (Z.to_nat (_maxIter zero)) with 0%nat by lia. reflexivity.
Qed.

End Sampler.

Import Sample.

Lemma C9_best_defined_witness :
  let self := Sample.dataset [mkLabel 0 20 20 30 30 100] 2 2 false in
  let tape := [3; 4; 18; 18; 1; 2; 3; 4; 5] in
  let tr := mkTrial (mkRect 3 4 13 14) [] in
  let tape1 := [18; 18; 1; 2; 3; 4; 5] in
  trial self tape = Ok (tr, tape1) /\
  (iterate self (Z.to_nat (_maxIter self)) initial tape
   = (if _minLabels self <=? numLabels tr then Ok (recorded tr, tape1)
      else iterate self (Z.to_nat (_maxIter self) - 1) (recorded tr) tape1) /\
   (forall st tape2,
       iterate self (Z.to_nat (_maxIter self)) initial tape = Ok (st, tape2) ->
       exists best, st = recorded best) /\
   get_image self true 1 tape <> Raise UnboundLocalError /\
   (forall (zero : MosaicDataSet.t unit) (tape0 : Tape),
       _maxIter zero <= 0 ->
       get_image zero true 1 tape0 = Raise UnboundLocalError)).
Proof.
  cbv zeta. split; [reflexivity|].
  apply (C9_best_defined (Sample.dataset [mkLabel 0 20 20 30 30 100] 2 2 false)
                         true 1 [3; 4; 18; 18; 1; 2; 3; 4; 5]
                         [18; 18; 1; 2; 3; 4; 5]
                         (mkTrial (mkRect 3 4 13 14) [])).
  - simpl. lia.
  - reflexivity.
Defined.

(** The run of the sample tape: the second trial, with its one label, is
    the one delivered, here without flip; with [lblFormat = 0] conversion 0
    is applied to its label. *)
Example get_image_sample :
  exists img,
    get_image (Sample.dataset [mkLabel 0 20 20 30 30 100] 2 2 false) true 0
              [3; 4; 18; 18; 0; 2; 3; 4; 5]
    = Ok ((img, Util.AbsoluteLabels [mkLabel 0 (-27) (-27) 63 63 10000]), []).
Proof. eexists. vm_compute. reflexivity. Qed.

(** Without a single pass of the loop nothing is stored. *)
Example get_image_no_iteration :
  get_image (Sample.dataset [] 1 0 false) true 1 [3; 4; 7; 8]
  = Raise UnboundLocalError.
Proof. reflexivity. Qed.

End SamplerFacts.

(** ** Further properties of the clip *)

Module ClipMore.
Import Util Props Terms ClipFacts.

Lemma scan_labels_outcome (ls : list Label) (r : Rect) (m : Q) (rp : bool) :
  forall acc,
    match scan_labels ls r m rp acc with
    | Ok _ => True
    | Raise e =>
        e = ZeroDivisionError /\
        exists l, In l ls /\ is_candidate l r = true /\ area l = 0
    | Pending => False
    end.
Proof.
  induction ls as [|cur rest IH]; intro acc; simpl; trivial.
  assert (Hrest : forall acc',
             match scan_labels rest r m rp acc' with
             | Ok _ => True
             | Raise e =>
                 e = ZeroDivisionError /\
                 exists l, In l (cur :: rest) /\ is_candidate l r = true /\ area l = 0
             | Pending => False
             end).
  { intro acc'. specialize (IH acc').
    destruct (scan_labels rest r m rp acc'); trivial.
    destruct IH as (-> & l & Hin & Hc & Ha). split; trivial.
    exists l. repeat split; trivial. now right. }
  destruct (is_candidate cur r) eqn:Hc; [|apply Hrest].
  unfold true_div. destruct (Z.eqb_spec (area cur) 0) as [Ha|Ha]; simpl.
  - split; trivial. exists cur. repeat split; trivial. now left.
  - destruct (rp && Qlt_bool _ 1); trivial.
    destruct (Qle_bool m _); apply Hrest.
Qed.

(** X3.  The clip always ends; the only exception it raises is
    [ZeroDivisionError], and it raises it only when a candidate label of
    the input has a zero area field. *)
Theorem X3_clip_raises_on_zero_area_only (ls : list Label) (r : Rect) (m : Q)
        (rp : bool) :
  match get_labels_in_rectangle ls r m rp with
  | Ok _ => True
  | Raise e =>
      e = ZeroDivisionError /\
      exists l, In l ls /\ is_candidate l r = true /\ area l = 0
  | Pending => False
  end.
Proof. apply scan_labels_outcome. Qed.

(** The clip returns when no candidate label has a zero area field. *)
Lemma clip_returns (ls : list Label) (r : Rect) (m : Q) (rp : bool) :
  (forall l, In l ls -> is_candidate l r = true -> area l <> 0) ->
  exists out p, get_labels_in_rectangle ls r m rp = Ok (out, p).
Proof.
  intro H. pose proof (scan_labels_outcome ls r m rp []) as Ho.
  unfold get_labels_in_rectangle.
  destruct (scan_labels ls r m rp []) as [[out p]| |].
  - now exists out, p.
  - destruct Ho as (_ & l & Hin & Hc & Ha). now destruct (H l Hin Hc).
  - contradiction.
Qed.

(** When no candidate stops the scan, the scan is a filter followed by the
    clipping of what is kept. *)
Lemma scan_filter (ls : list Label) (r : Rect) (m : Q) (rp : bool) :
  (forall l, In l ls -> is_candidate l r = true ->
             area l <> 0 /\ (rp = true -> (1 <= areaRatio l r)%Q)) ->
  forall acc,
    scan_labels ls r m rp acc
    = Ok (acc ++ map (fun l => clipped l r) (filter (keeps r m) ls), false).
Proof.
  induction ls as [|cur rest IH]; intros H acc; simpl.
  - now rewrite app_nil_r.
  - assert (Hrest : forall l, In l rest -> is_candidate l r = true ->
                      area l <> 0 /\ (rp = true -> (1 <= areaRatio l r)%Q))
      by (intros l Hl; apply H; now right).
    unfold keeps at 1. destruct (is_candidate cur r) eqn:Hc; simpl;
      [|now apply IH].
    destruct (H cur (or_introl eq_refl) Hc) as [Ha Hr].
    rewrite (true_div_ok _ _ Ha). simpl. fold (areaRatio cur r).
    assert (E : rp && Qlt_bool (areaRatio cur r) 1 = false).
    { destruct rp; trivial. simpl. now apply Qlt_bool_false_iff, Hr. }
    rewrite E. destruct (Qle_bool m (areaRatio cur r)); simpl.
    + rewrite (IH Hrest), <- app_assoc. reflexivity.
    + now apply IH.
Qed.

(** X4.  Without [rejectPartial], and when no candidate label has a zero
    area field, the clip returns, in the order of the input, the clipped
    copy of every label that is a candidate and whose area ratio reaches
    [minPct], and nothing else. *)
Theorem X4_clip_is_a_filter (ls : list Label) (r : Rect) (m : Q) :
  (forall l, In l ls -> is_candidate l r = true -> area l <> 0) ->
  get_labels_in_rectangle ls r m false
  = Ok (map (fun l => clipped l r) (filter (keeps r m) ls), false).
Proof.
  intro H. unfold get_labels_in_rectangle.
  rewrite scan_filter; trivial.
  intros l Hl Hc. split; [now apply H|discriminate].
Qed.

Lemma X4_clip_is_a_filter_witness :
  let ls := [mkLabel 0 0 0 50 50 2500; mkLabel 1 60 10 80 30 400;
             mkLabel 2 140 90 160 110 400; mkLabel 3 120 40 140 60 400] in
  let r := mkRect 50 0 150 100 in
  get_labels_in_rectangle ls r (1 # 2) false
  = Ok (map (fun l => clipped l r) (filter (keeps r (1 # 2)) ls), false) /\
  map (fun l => clipped l r) (filter (keeps r (1 # 2)) ls)
  = [mkLabel 1 10 10 30 30 400; mkLabel 3 70 40 90 60 400].
Proof.
  cbv zeta. split; [|reflexivity].
  apply (X4_clip_is_a_filter
           [mkLabel 0 0 0 50 50 2500; mkLabel 1 60 10 80 30 400;
            mkLabel 2 140 90 160 110 400; mkLabel 3 120 40 140 60 400]
           (mkRect 50 0 150 100) (1 # 2)).
  intros l [<-|[<-|[<-|[<-|[]]]]] _; simpl; lia.
Defined.

Lemma scan_partial_origin (ls : list Label) (r : Rect) (m : Q) (rp : bool) :
  forall acc out,
    scan_labels ls r m rp acc = Ok (out, true) ->
    rp = true /\
    exists l, In l ls /\ is_candidate l r = true /\ area l <> 0 /\
              (areaRatio l r < 1)%Q.
Proof.
  induction ls as [|cur rest IH]; intros acc out H; simpl in H; [discriminate|].
  assert (Hrest : forall acc',
             scan_labels rest r m rp acc' = Ok (out, true) ->
             rp = true /\
             exists l, In l (cur :: rest) /\ is_candidate l r = true /\
                       area l <> 0 /\ (areaRatio l r < 1)%Q).
  { intros acc' H'. destruct (IH _ _ H') as (Hrp & l & Hin & Hl).
    split; trivial. exists l. split; [now right|trivial]. }
  destruct (is_candidate cur r) eqn:Hc; [|now apply Hrest in H].
  unfold true_div in H. destruct (Z.eqb_spec (area cur) 0) as [Ha|Ha];
    [discriminate|]. simpl in H. fold (areaRatio cur r) in H.
  destruct (rp && Qlt_bool (areaRatio cur r) 1) eqn:Hp.
  - apply andb_true_iff in Hp. destruct Hp as [-> Hlt]. split; trivial.
    exists cur. repeat split; trivial; [now left|now apply Qlt_bool_iff].
  - destruct (Qle_bool m (areaRatio cur r)); now apply Hrest in H.
Qed.

(** X5.  The clip returns [isPartial = True] only when [rejectPartial] is
    set and some candidate label of the input has an area ratio below 1; in
    particular never without [rejectPartial]. *)
Theorem X5_partial_flag_is_sound (ls : list Label) (r : Rect) (m : Q)
        (rp : bool) (out : list Label) :
  get_labels_in_rectangle ls r m rp = Ok (out, true) ->
  rp = true /\
  exists l, In l ls /\ is_candidate l r = true /\ area l <> 0 /\
            (areaRatio l r < 1)%Q.
Proof. apply scan_partial_origin. Qed.

Lemma X5_partial_flag_is_sound_witness :
  let ls := [mkLabel 0 60 10 80 30 400; mkLabel 0 100 50 200 150 10000] in
  let r := mkRect 50 0 150 100 in
  get_labels_in_rectangle ls r (1 # 2) true
  = Ok ([mkLabel 0 10 10 30 30 400], true) /\
  (true = true /\
   exists l, In l ls /\ is_candidate l r = true /\ area l <> 0 /\
             (areaRatio l r < 1)%Q).
Proof.
  cbv zeta. split; [reflexivity|].
  apply (X5_partial_flag_is_sound
           [mkLabel 0 60 10 80 30 400; mkLabel 0 100 50 200 150 10000]
           (mkRect 50 0 150 100) (1 # 2) true [mkLabel 0 10 10 30 30 400]).
  reflexivity.
Defined.

(** The labels a clip returns lie in the tile. *)
Lemma clip_within_tile (ls : list Label) (r : Rect) (m : Q) (rp : bool)
      (out : list Label) (p : bool) :
  rect_ordered r -> Forall ordered ls ->
  get_labels_in_rectangle ls r m rp = Ok (out, p) ->
  Forall (within_tile r) out.
Proof.
  intros Hr Hls H. rewrite clip_sources in H.
  destruct (sources ls r m rp) as [[src p']| |] eqn:Hs; simpl in H;
    try discriminate.
  injection H as <- <-. apply Forall_forall. intros c Hc.
  apply in_map_iff in Hc. destruct Hc as (l & <- & Hin).
  destruct (scan_sources_sound _ _ _ _ _ _ _ Hs l Hin)
    as [[]|(Hl & Hcand & _)].
  apply clipped_within_tile; trivial.
  rewrite Forall_forall in Hls. now apply Hls.
Qed.

(** X1.  With [rejectPartial], a scan that reaches a candidate label of
    area ratio below 1 stops there: the clip returns the labels kept so far
    with [isPartial = True], whatever labels follow. *)
Theorem X1_short_circuit (pre post : list Label) (lab : Label) (r : Rect)
        (m : Q) (o : list Label) :
  get_labels_in_rectangle pre r m true = Ok (o, false) ->
  is_candidate lab r = true -> area lab <> 0 ->
  (areaRatio lab r < 1)%Q ->
  get_labels_in_rectangle (pre ++ lab :: post) r m true = Ok (o, true).
Proof. apply short_circuit. Qed.

Lemma X1_short_circuit_witness :
  let pre := [mkLabel 0 60 10 80 30 400] in
  let lab := mkLabel 0 100 50 200 150 10000 in
  let post := [mkLabel 0 70 70 90 90 0] in
  let r := mkRect 50 0 150 100 in
  get_labels_in_rectangle (pre ++ lab :: post) r (1 # 2) true
  = Ok ([mkLabel 0 10 10 30 30 400], true).
Proof.
  cbv zeta.
  apply (X1_short_circuit [mkLabel 0 60 10 80 30 400]
                          [mkLabel 0 70 70 90 90 0]
                          (mkLabel 0 100 50 200 150 10000)
                          (mkRect 50 0 150 100) (1 # 2)).
  - reflexivity.
  - reflexivity.
  - simpl. lia.
  - reflexivity.
Defined.

(** X2.  A list of labels of positive width and height that satisfy the
    area invariant and lie inside the rectangle is returned whole, in
    order, each label translated to the origin of the rectangle, with
    [isPartial = False], for every [minPct <= 1] and either value of
    [rejectPartial]. *)
Theorem X2_contained_labels_are_translated (ls : list Label) (r : Rect)
        (m : Q) (rp : bool) :
  (m <= 1)%Q ->
  Forall (fun l => proper l /\ area_invariant l /\ contained l r) ls ->
  get_labels_in_rectangle ls r m rp = Ok (map (translate r) ls, false).
Proof. apply clip_all_contained. Qed.

Lemma X2_contained_labels_are_translated_witness :
  let ls := [mkLabel 0 100 100 200 200 10000; mkLabel 1 60 70 80 75 100] in
  let r := mkRect 50 50 250 250 in
  get_labels_in_rectangle ls r (1 # 2) true
  = Ok ([mkLabel 0 50 50 150 150 10000; mkLabel 1 10 20 30 25 100], false).
Proof.
  cbv zeta.
  apply (X2_contained_labels_are_translated
           [mkLabel 0 100 100 200 200 10000; mkLabel 1 60 70 80 75 100]
           (mkRect 50 50 250 250) (1 # 2) true).
  - discriminate.
  - repeat constructor; simpl; lia.
Defined.

(** The clipped box of a candidate is no larger than the box. *)
Lemma clipped_sides (l : Label) (r : Rect) :
  rect_ordered r -> ordered l -> is_candidate l r = true ->
  0 <= lxRight l r - lxLeft l r <= xRight l - xLeft l /\
  0 <= lyBottom l r - lyTop l r <= yBottom l - yTop l.
Proof.
  intros [Hrx Hry] [Hlx Hly] Hc. apply is_candidate_iff in Hc.
  unfold lxLeft, lxRight, lyTop, lyBottom. lia.
Qed.

Lemma theArea_le_box (l : Label) (r : Rect) :
  rect_ordered r -> ordered l -> is_candidate l r = true ->
  0 <= theArea l r <= box_area l.
Proof.
  intros Hr Hl Hc. destruct (clipped_sides l r Hr Hl Hc) as [Hx Hy].
  unfold theArea, box_area. nia.
Qed.

Lemma ratio_lt_one (a b : Z) :
  0 < b -> a < b -> (inject_Z a / inject_Z b < 1)%Q.
Proof.
  intros Hb Hab. apply Qlt_shift_div_r.
  - unfold Qlt; simpl. lia.
  - rewrite Qmult_1_l, <- Zlt_Qlt. exact Hab.
Qed.

Lemma ratio_ge_one (a b : Z) :
  0 < b -> (1 <= inject_Z a / inject_Z b)%Q -> b <= a.
Proof.
  intros Hb H. rewrite Zle_Qle.
  assert (Hq : (0 < inject_Z b)%Q) by (unfold Qlt; simpl; lia).
  apply (Qmult_le_compat_r _ _ (inject_Z b)) in H; [|now apply Qlt_le_weak].
  rewrite Qmult_1_l in H.
  setoid_replace (inject_Z a / inject_Z b * inject_Z b)%Q with (inject_Z a) in H.
  - exact H.
  - field. intro E. rewrite E in Hq. discriminate.
Qed.

(** A proper label whose clipped area is its own lies inside the
    rectangle. *)
Lemma full_ratio_contained (l : Label) (r : Rect) :
  rect_ordered r -> proper l -> area_invariant l ->
  is_candidate l r = true -> (1 <= areaRatio l r)%Q -> contained l r.
Proof.
  intros Hr [Hx Hy] Ha Hc Hq.
  assert (Ho : ordered l) by (unfold ordered; lia).
  destruct (clipped_sides l r Hr Ho Hc) as [Hsx Hsy].
  unfold area_invariant in Ha.
  assert (Hpos : 0 < area l) by (rewrite Ha; nia).
  apply (ratio_ge_one _ _ Hpos) in Hq. unfold theArea in Hq. rewrite Ha in Hq.
  assert (Ex : lxRight l r - lxLeft l r = xRight l - xLeft l) by nia.
  assert (Ey : lyBottom l r - lyTop l r = yBottom l - yTop l) by nia.
  destruct Hr as [Hrx Hry]. apply is_candidate_iff in Hc.
  unfold lxLeft, lxRight in Ex. unfold lyTop, lyBottom in Ey.
  unfold contained. lia.
Qed.

Lemma scan_accepted (ls : list Label) (r : Rect) (m : Q) :
  forall acc out,
    scan_labels ls r m true acc = Ok (out, false) ->
    forall l, In l ls -> is_candidate l r = true ->
              area l <> 0 /\ (1 <= areaRatio l r)%Q.
Proof.
  induction ls as [|cur rest IH]; intros acc out H l Hl Hc; [destruct Hl|].
  simpl in H. destruct (is_candidate cur r) eqn:Hcur.
  - unfold true_div in H. destruct (Z.eqb_spec (area cur) 0) as [Ha|Ha];
      [discriminate|]. simpl in H. fold (areaRatio cur r) in H.
    destruct (Qlt_bool (areaRatio cur r) 1) eqn:Hlt; [discriminate|].
    apply Qlt_bool_false_iff in Hlt.
    destruct Hl as [<-|Hl]; [now split|].
    destruct (Qle_bool m (areaRatio cur r)); exact (IH _ _ H l Hl Hc).
  - destruct Hl as [<-|Hl]; [congruence|]. exact (IH _ _ H l Hl Hc).
Qed.

(** A clip accepted under [rejectPartial] cuts no label. *)
Lemma accepted_clip (ls : list Label) (r : Rect)
        (m : Q) (out : list Label) :
  rect_ordered r ->
  Forall (fun l => proper l /\ area_invariant l) ls ->
  (m <= 1)%Q ->
  get_labels_in_rectangle ls r m true = Ok (out, false) ->
  (forall l, In l ls -> is_candidate l r = true -> contained l r) /\
  out = map (translate r) (filter (fun l => is_candidate l r) ls).
Proof.
  intros Hr Hls Hm H. rewrite Forall_forall in Hls.
  pose proof (scan_accepted _ _ _ _ _ H) as Hacc.
  assert (Hin : forall l, In l ls -> is_candidate l r = true -> contained l r).
  { intros l Hl Hc. destruct (Hls l Hl) as [Hp Ha].
    apply full_ratio_contained; trivial. now apply Hacc. }
  split; trivial.
  unfold get_labels_in_rectangle in H. rewrite scan_filter in H.
  - injection H as <-. simpl.
    rewrite (filter_ext_in (keeps r m) (fun l => is_candidate l r)).
    + apply map_ext_in. intros l Hl. apply filter_In in Hl.
      destruct Hl as [Hl Hc]. destruct (Hls l Hl) as [Hp Ha].
      now destruct (clipped_contained l r Hp Ha (Hin l Hl Hc)) as (_ & -> & _).
    + intros l Hl. unfold keeps. destruct (is_candidate l r) eqn:Hc; trivial.
      simpl. apply Qle_bool_iff. destruct (Hacc l Hl Hc) as [_ Hq].
      now apply Qle_trans with 1%Q.
  - intros l Hl Hc. destruct (Hacc l Hl Hc). now split.
Qed.

(** X6.  With [rejectPartial], a clip that returns [isPartial = False] cuts
    no label: for labels of positive width and height that satisfy the area
    invariant, every candidate label of the input lies inside the
    rectangle, and for [minPct <= 1] the output is the list of the
    candidate labels, in order, translated to the origin of the
    rectangle. *)
Theorem X6_accepted_rectangle_cuts_no_label (ls : list Label) (r : Rect)
        (m : Q) (out : list Label) :
  rect_ordered r ->
  Forall (fun l => proper l /\ area_invariant l) ls ->
  (m <= 1)%Q ->
  get_labels_in_rectangle ls r m true = Ok (out, false) ->
  (forall l, In l ls -> is_candidate l r = true -> contained l r) /\
  out = map (translate r) (filter (fun l => is_candidate l r) ls).
Proof. apply accepted_clip. Qed.

Lemma X6_accepted_rectangle_cuts_no_label_witness :
  let ls := [mkLabel 0 100 100 200 200 10000; mkLabel 1 300 300 310 310 100;
             mkLabel 2 60 70 80 75 100] in
  let r := mkRect 50 50 250 250 in
  get_labels_in_rectangle ls r (1 # 2) true
  = Ok ([mkLabel 0 50 50 150 150 10000; mkLabel 2 10 20 30 25 100], false) /\
  ((forall l, In l ls -> is_candidate l r = true -> contained l r) /\
   [mkLabel 0 50 50 150 150 10000; mkLabel 2 10 20 30 25 100]
   = map (translate r) (filter (fun l => is_candidate l r) ls)).
Proof.
  cbv zeta. split; [reflexivity|].
  apply (X6_accepted_rectangle_cuts_no_label
           [mkLabel 0 100 100 200 200 10000; mkLabel 1 300 300 310 310 100;
            mkLabel 2 60 70 80 75 100]
           (mkRect 50 50 250 250) (1 # 2)).
  - unfold rect_ordered; simpl; lia.
  - repeat constructor; simpl; lia.
  - discriminate.
  - reflexivity.
Defined.

(** X7.  A candidate label whose area field exceeds the area of its box
    always counts as partial, even when its box lies inside the rectangle:
    with [rejectPartial], a scan that reaches it stops with
    [isPartial = True]. *)
Theorem X7_inflated_area_is_partial (pre post : list Label) (lab : Label)
        (r : Rect) (m : Q) (o : list Label) :
  rect_ordered r -> ordered lab -> is_candidate lab r = true ->
  box_area lab < area lab ->
  get_labels_in_rectangle pre r m true = Ok (o, false) ->
  get_labels_in_rectangle (pre ++ lab :: post) r m true = Ok (o, true).
Proof.
  intros Hr Hl Hc Ha Hpre.
  pose proof (theArea_le_box lab r Hr Hl Hc) as Hb.
  apply short_circuit; trivial; [lia|].
  apply ratio_lt_one; lia.
Qed.

Lemma X7_inflated_area_is_partial_witness :
  let lab := mkLabel 0 100 100 200 200 10201 in
  let r := mkRect 50 50 250 250 in
  contained lab r /\
  get_labels_in_rectangle ([] ++ lab :: []) r (1 # 2) true = Ok ([], true).
Proof.
  cbv zeta. split; [unfold contained; simpl; lia|].
  apply (X7_inflated_area_is_partial [] [] (mkLabel 0 100 100 200 200 10201)
                                     (mkRect 50 50 250 250) (1 # 2) []).
  - unfold rect_ordered; simpl; lia.
  - unfold ordered; simpl; lia.
  - reflexivity.
  - unfold box_area; simpl; lia.
  - reflexivity.
Defined.

End ClipMore.

(** ** Further properties of the conversion *)

Module ConvertMore.
Import Util Props Terms ConvertFacts.

Lemma rows_length (theLabels : Labels) : length (rows theLabels) = count theLabels.
Proof. destruct theLabels; simpl; apply length_map. Qed.

Lemma comprehension_length {A B : Type} (f : A -> outcome B) (l : list A) :
  forall out, comprehension f l = Ok out -> length out = length l.
Proof.
  induction l as [|a l IH]; simpl; intros out H.
  - now injection H as <-.
  - destruct (f a); try discriminate. simpl in H.
    destruct (comprehension f l) as [bs| |]; try discriminate.
    injection H as <-. simpl. f_equal. now apply IH.
Qed.

Lemma to_yolo_zero_division (imgWidth imgHeight : Z) (a : Row) :
  imgWidth = 1 \/ imgHeight = 1 ->
  to_yolo imgWidth imgHeight a = Raise ZeroDivisionError.
Proof.
  intros H. unfold to_yolo, float_div.
  destruct (Z.eqb_spec (imgWidth - 1) 0); [reflexivity|].
  destruct (Z.eqb_spec (imgHeight - 1) 0); [reflexivity|]. lia.
Qed.

(** X8.  The outcome of a conversion by cases: a direction other than 0
    and 1 exits; direction 1 on a non-empty list with an image one pixel
    wide or high raises [ZeroDivisionError]; in every other case the
    conversion returns as many labels as it was given. *)
Theorem X8_conversion_outcome (theLabels : Labels)
        (imgWidth imgHeight theConversion : Z) :
  (theConversion <> 0 -> theConversion <> 1 ->
   convert_objdetect_labels theLabels imgWidth imgHeight theConversion
   = Raise SystemExit) /\
  (theConversion = 1 -> count theLabels <> 0%nat ->
   imgWidth = 1 \/ imgHeight = 1 ->
   convert_objdetect_labels theLabels imgWidth imgHeight theConversion
   = Raise ZeroDivisionError) /\
  (theConversion = 0 \/
   (theConversion = 1 /\
    (count theLabels = 0%nat \/ (imgWidth <> 1 /\ imgHeight <> 1))) ->
   exists out,
     convert_objdetect_labels theLabels imgWidth imgHeight theConversion = Ok out /\
     count out = count theLabels).
Proof.
  unfold convert_objdetect_labels. rewrite <- rows_length. repeat split.
  - intros H0 H1.
    destruct (Z.eqb_spec theConversion 0); [contradiction|].
    destruct (Z.eqb_spec theConversion 1); [contradiction|reflexivity].
  - intros -> Hne Hsize. simpl.
    destruct (rows theLabels) as [|a l]; [contradiction|]. simpl.
    now rewrite (to_yolo_zero_division _ _ a Hsize).
  - intros [->|(-> & Hcase)]; simpl.
    + eexists. split; [reflexivity|]. simpl. now rewrite length_map.
    + destruct Hcase as [Hempty|[HW HH]].
      * destruct (rows theLabels); [|discriminate]. simpl.
        exists (YoloLabels []). now split.
      * destruct (SamplerFacts.comprehension_to_yolo_ok
                    imgWidth imgHeight (rows theLabels) HW HH) as (out & Hout).
        rewrite Hout. simpl. exists (YoloLabels out). split; trivial.
        simpl. now apply comprehension_length in Hout.
Qed.

(** A conversion that returns keeps the number of labels. *)
Lemma convert_count (theLabels : Labels) (imgWidth imgHeight theConversion : Z)
      (out : Labels) :
  convert_objdetect_labels theLabels imgWidth imgHeight theConversion = Ok out ->
  count out = count theLabels.
Proof.
  unfold convert_objdetect_labels. rewrite <- (rows_length theLabels).
  destruct (theConversion =? 0).
  - intros [= <-]. simpl. now rewrite length_map.
  - destruct (theConversion =? 1); [|discriminate].
    destruct (comprehension _ _) as [ls| |] eqn:E; try discriminate.
    simpl. intros [= <-]. simpl. now apply comprehension_length in E.
Qed.

(** [round] of an integer is that integer. *)
Lemma py_round_inject (q : Q) (z : Z) : (q == inject_Z z)%Q -> py_round q = z.
Proof.
  intro H. unfold py_round. rewrite (Qfloor_comp _ _ H), Qfloor_Z.
  destruct (Qcompare_spec (q - inject_Z z) (1 # 2)) as [E|E|E];
    [exfalso; lra|reflexivity|exfalso; lra].
Qed.

(** [round] is monotone. *)
Lemma py_round_mono (p q : Q) : (p <= q)%Q -> py_round p <= py_round q.
Proof.
  intro H. unfold py_round.
  pose proof (Qfloor_resp_le _ _ H) as Hf.
  pose proof (Qfloor_le p) as Hp. pose proof (Qlt_floor p) as Hp'.
  pose proof (Qfloor_le q) as Hq. pose proof (Qlt_floor q) as Hq'.
  rewrite inject_Z_plus in Hp', Hq'.
  change (inject_Z 1) with 1%Q in Hp', Hq'.
  remember (Qfloor p) as f eqn:Ef. remember (Qfloor q) as g eqn:Eg.
  clear Ef Eg.
  destruct (Z.eq_dec f g) as [<-|Hne].
  - destruct (Qcompare_spec (p - inject_Z f) (1 # 2)) as [E1|E1|E1];
      destruct (Qcompare_spec (q - inject_Z f) (1 # 2)) as [E2|E2|E2];
      destruct (Z.even f); try lia; exfalso; lra.
  - destruct (Qcompare_spec (p - inject_Z f) (1 # 2)) as [E1|E1|E1];
      destruct (Qcompare_spec (q - inject_Z g) (1 # 2)) as [E2|E2|E2];
      destruct (Z.even f); destruct (Z.even g); lia.
Qed.

Lemma py_round_nonneg (q : Q) : (0 <= q)%Q -> 0 <= py_round q.
Proof.
  intro H. apply py_round_mono in H.
  now rewrite (py_round_inject 0 0 (Qeq_refl _)) in H.
Qed.

Lemma half_le (c w : Q) : (0 <= w -> c - w / 2 <= c + w / 2)%Q.
Proof.
  intro H. setoid_replace (w / 2)%Q with ((1 # 2) * w)%Q by field. lra.
Qed.

(** X10.  Conversion 0 of a row of non-negative width and height, for an
    image at least one pixel wide and high, yields a box with
    [xLeft <= xRight] and [yTop <= yBottom] and a non-negative area
    field. *)
Theorem X10_to_absolute_ordered (imgWidth imgHeight : Z) (curLabel : Row) :
  1 <= imgWidth -> 1 <= imgHeight ->
  (0 <= c3 curLabel)%Q -> (0 <= c4 curLabel)%Q ->
  ordered (to_absolute imgWidth imgHeight curLabel) /\
  0 <= area (to_absolute imgWidth imgHeight curLabel).
Proof.
  intros HW HH Hw Hh.
  assert (HW' : (0 <= inject_Z (imgWidth - 1))%Q) by (unfold Qle; simpl; lia).
  assert (HH' : (0 <= inject_Z (imgHeight - 1))%Q) by (unfold Qle; simpl; lia).
  assert (HW'' : (0 <= inject_Z imgWidth)%Q) by (unfold Qle; simpl; lia).
  assert (HH'' : (0 <= inject_Z imgHeight)%Q) by (unfold Qle; simpl; lia).
  unfold ordered, to_absolute.
  cbn [xLeft xRight yTop yBottom area]. repeat split.
  - apply py_round_mono, Qmult_le_compat_r; trivial. now apply half_le.
  - apply py_round_mono, Qmult_le_compat_r; trivial. now apply half_le.
  - apply py_round_nonneg.
    repeat apply Qmult_le_0_compat; trivial.
Qed.

Lemma X10_to_absolute_ordered_witness :
  ordered (to_absolute 641 481 (mkRow 3 (1 # 2) (1 # 4) (1 # 5) (1 # 10))) /\
  0 <= area (to_absolute 641 481 (mkRow 3 (1 # 2) (1 # 4) (1 # 5) (1 # 10))).
Proof.
  apply (X10_to_absolute_ordered 641 481 (mkRow 3 (1 # 2) (1 # 4) (1 # 5) (1 # 10)));
    [lia|lia|discriminate|discriminate].
Defined.

(** One absolute label, to normalized form and back. *)
Lemma back_trip_row (imgWidth imgHeight : Z) (l : Label) :
  imgWidth <> 1 -> imgHeight <> 1 ->
  exists y,
    to_yolo imgWidth imgHeight (row_of_label l) = Ok y /\
    same_box l (to_absolute imgWidth imgHeight (row_of_yolo y)).
Proof.
  intros HW HH. unfold to_yolo.
  rewrite !float_div_ok by lia. cbn [bind ret outcome_monad].
  eexists. split; [reflexivity|].
  assert (HW' : ~ (inject_Z (imgWidth - 1) == 0)%Q)
    by (unfold Qeq; simpl; lia).
  assert (HH' : ~ (inject_Z (imgHeight - 1) == 0)%Q)
    by (unfold Qeq; simpl; lia).
  unfold same_box, to_absolute, row_of_label, row_of_yolo.
  cbn [ycls xCenter yCenter width height c0 c1 c2 c3 c4
       cls xLeft yTop xRight yBottom].
  repeat split; apply py_round_inject; field; trivial.
Qed.

Lemma comprehension_back_trip (imgWidth imgHeight : Z) (ls : list Label) :
  imgWidth <> 1 -> imgHeight <> 1 ->
  exists yolo,
    comprehension (to_yolo imgWidth imgHeight) (map row_of_label ls) = Ok yolo /\
    Forall2 same_box ls
            (map (to_absolute imgWidth imgHeight) (map row_of_yolo yolo)).
Proof.
  intros HW HH. induction ls as [|l ls (yolo & Hy & Hf)].
  - exists []. split; [reflexivity|constructor].
  - destruct (back_trip_row imgWidth imgHeight l HW HH) as (y & Hl & Hb).
    exists (y :: yolo). simpl. rewrite Hl. simpl. rewrite Hy. simpl.
    split; [reflexivity|now constructor].
Qed.

(** X9.  For an image that is not one pixel wide or high, conversion 1 of
    absolute labels followed by conversion 0 with the same size succeeds
    and restores the class and the four corners of every label exactly
    (floats being exact rationals here).  The area field is computed anew
    from the normalized size. *)
Theorem X9_absolute_round_trip (imgWidth imgHeight : Z) (ls : list Label) :
  imgWidth <> 1 -> imgHeight <> 1 ->
  exists yolo back,
    convert_objdetect_labels (AbsoluteLabels ls) imgWidth imgHeight 1
    = Ok (YoloLabels yolo) /\
    convert_objdetect_labels (YoloLabels yolo) imgWidth imgHeight 0
    = Ok (AbsoluteLabels back) /\
    Forall2 same_box ls back.
Proof.
  intros HW HH.
  destruct (comprehension_back_trip imgWidth imgHeight ls HW HH)
    as (yolo & Hy & Hf).
  exists yolo, (map (to_absolute imgWidth imgHeight) (map row_of_yolo yolo)).
  unfold convert_objdetect_labels; simpl. rewrite Hy. simpl.
  repeat split; trivial.
Qed.

Lemma X9_absolute_round_trip_witness :
  exists yolo back,
    convert_objdetect_labels (AbsoluteLabels [mkLabel 2 10 20 49 43 897]) 640 480 1
    = Ok (YoloLabels yolo) /\
    convert_objdetect_labels (YoloLabels yolo) 640 480 0
    = Ok (AbsoluteLabels back) /\
    Forall2 same_box [mkLabel 2 10 20 49 43 897] back.
Proof.
  apply (X9_absolute_round_trip 640 480 [mkLabel 2 10 20 49 43 897]); lia.
Defined.

End ConvertMore.

(** ** Further properties of the flips *)

Module TransformMore.
Import Util Terms TransformFacts.

Section Flips.
Context {Pixel : Type}.

Lemma fliplr_involutive (theImage : Image Pixel) :
  fliplr (fliplr theImage) = theImage.
Proof.
  destruct theImage as [s0 s1 px]. unfold fliplr; simpl. f_equal.
  rewrite map_map. rewrite <- (map_id px) at 2.
  apply map_ext. intro row. apply rev_involutive.
Qed.

Lemma flipud_involutive (theImage : Image Pixel) :
  flipud (flipud theImage) = theImage.
Proof.
  destruct theImage as [s0 s1 px]. unfold flipud; simpl. f_equal.
  apply rev_involutive.
Qed.

Lemma hflip_label_involutive (imgWidth : Z) (l : Label) :
  hflip_label imgWidth (hflip_label imgWidth l) = l.
Proof. destruct l. unfold hflip_label; simpl. f_equal; lia. Qed.

Lemma vflip_label_involutive (imgHeight : Z) (l : Label) :
  vflip_label imgHeight (vflip_label imgHeight l) = l.
Proof. destruct l. unfold vflip_label; simpl. f_equal; lia. Qed.

Lemma hflip_involutive (s : Image Pixel * list Label) : hflip (hflip s) = s.
Proof.
  destruct s as [theImage theLabels]. unfold hflip; simpl.
  rewrite fliplr_involutive. f_equal.
  rewrite map_map. rewrite <- (map_id theLabels) at 2.
  apply map_ext. intro l. apply hflip_label_involutive.
Qed.

Lemma vflip_involutive (s : Image Pixel * list Label) : vflip (vflip s) = s.
Proof.
  destruct s as [theImage theLabels]. unfold vflip; simpl.
  rewrite flipud_involutive. f_equal.
  rewrite map_map. rewrite <- (map_id theLabels) at 2.
  apply map_ext. intro l. apply vflip_label_involutive.
Qed.

(** X11.  Flipping twice with the same [flipValue] gives back the tile and
    its labels, whatever [flipValue] is. *)
Theorem X11_flips_involutive (theImage : Image Pixel) (theLabels : list Label)
        (flipValue : Z) :
  flips (fst (flips theImage theLabels flipValue))
        (snd (flips theImage theLabels flipValue)) flipValue
  = (theImage, theLabels).
Proof.
  unfold flips.
  destruct (negb (Z.land flipValue 1 =? 0)), (negb (Z.land flipValue 2 =? 0));
    rewrite <- ?surjective_pairing.
  - rewrite <- hflip_vflip, vflip_involutive. apply hflip_involutive.
  - apply hflip_involutive.
  - apply vflip_involutive.
  - reflexivity.
Qed.

Lemma hflip_same_size (imgWidth : Z) (l : Label) :
  same_size l (hflip_label imgWidth l).
Proof. unfold same_size, hflip_label; simpl. repeat split; lia. Qed.

Lemma vflip_same_size (imgHeight : Z) (l : Label) :
  same_size l (vflip_label imgHeight l).
Proof. unfold same_size, vflip_label; simpl. repeat split; lia. Qed.

Lemma same_size_refl (l : Label) : same_size l l.
Proof. unfold same_size. repeat split. Qed.

Lemma same_size_trans (l1 l2 l3 : Label) :
  same_size l1 l2 -> same_size l2 l3 -> same_size l1 l3.
Proof. unfold same_size. intros (?&?&?&?) (?&?&?&?). repeat split; lia. Qed.

Lemma Forall2_map_r {A B : Type} (R : A -> B -> Prop) (f : A -> B) (l : list A) :
  (forall a, R a (f a)) -> Forall2 R l (map f l).
Proof. intro H. induction l; simpl; constructor; auto. Qed.

Lemma Forall2_same_size_trans (l1 l2 l3 : list Label) :
  Forall2 same_size l1 l2 -> Forall2 same_size l2 l3 -> Forall2 same_size l1 l3.
Proof.
  intro H. revert l3. induction H as [|a b l1 l2 Hab _ IH]; intros l3 H3.
  - inversion H3. constructor.
  - inversion H3 as [|? c ? l3' Hbc Hrest]; subst. constructor.
    + exact (same_size_trans _ _ _ Hab Hbc).
    + now apply IH.
Qed.

(** X12.  The flips keep the shape of the tile and, label by label and in
    order, the class, the area field and the width and height of the
    box. *)
Theorem X12_flips_keep_sizes (theImage : Image Pixel) (theLabels : list Label)
        (flipValue : Z) :
  shape0 (fst (flips theImage theLabels flipValue)) = shape0 theImage /\
  shape1 (fst (flips theImage theLabels flipValue)) = shape1 theImage /\
  Forall2 same_size theLabels (snd (flips theImage theLabels flipValue)).
Proof.
  unfold flips.
  destruct (negb (Z.land flipValue 1 =? 0)), (negb (Z.land flipValue 2 =? 0));
    simpl; repeat split.
  - apply Forall2_same_size_trans with
      (map (hflip_label (shape1 theImage)) theLabels);
      apply Forall2_map_r; [apply hflip_same_size|apply vflip_same_size].
  - apply Forall2_map_r, hflip_same_size.
  - apply Forall2_map_r, vflip_same_size.
  - clear. induction theLabels; constructor; auto using same_size_refl.
Qed.

Lemma hflip_on_image (imgHeight imgWidth : Z) (l : Label) :
  on_image imgHeight imgWidth l ->
  on_image imgHeight imgWidth (hflip_label imgWidth l).
Proof. unfold on_image, hflip_label; simpl. lia. Qed.

Lemma vflip_on_image (imgHeight imgWidth : Z) (l : Label) :
  on_image imgHeight imgWidth l ->
  on_image imgHeight imgWidth (vflip_label imgHeight l).
Proof. unfold on_image, vflip_label; simpl. lia. Qed.

(** X13.  Labels whose boxes lie on the pixels of the tile, from column 0
    to column [width-1] and from row 0 to row [height-1], still do after
    the flips. *)
Theorem X13_flips_keep_labels_on_image (theImage : Image Pixel)
        (theLabels : list Label) (flipValue : Z) :
  Forall (on_image (shape0 theImage) (shape1 theImage)) theLabels ->
  Forall (on_image (shape0 theImage) (shape1 theImage))
         (snd (flips theImage theLabels flipValue)).
Proof.
  intro H. unfold flips.
  destruct (negb (Z.land flipValue 1 =? 0)), (negb (Z.land flipValue 2 =? 0));
    simpl; trivial.
  - apply Forall_map, Forall_map. revert H. apply Forall_impl. intros l Hl.
    now apply vflip_on_image, hflip_on_image.
  - apply Forall_map. revert H. apply Forall_impl. intros l Hl.
    now apply hflip_on_image.
  - apply Forall_map. revert H. apply Forall_impl. intros l Hl.
    now apply vflip_on_image.
Qed.

End Flips.

Lemma X13_flips_keep_labels_on_image_witness :
  Forall (on_image 10 10)
         (snd (flips (mkImage 10 10 (repeat (repeat tt 10) 10))
                     [mkLabel 0 2 3 9 5 14] 3)) /\
  snd (flips (mkImage 10 10 (repeat (repeat tt 10) 10)) [mkLabel 0 2 3 9 5 14] 3)
  = [mkLabel 0 0 4 7 6 14].
Proof.
  split; [|reflexivity].
  apply (X13_flips_keep_labels_on_image
           (mkImage 10 10 (repeat (repeat tt 10) 10)) [mkLabel 0 2 3 9 5 14] 3).
  repeat constructor; simpl; lia.
Defined.

End TransformMore.

(** ** Further properties of the sampler *)

Module SamplerMore.
Import MosaicDataSet Props Terms SamplerFacts.

Lemma bind_inv_ok {A B : Type} (c : Rand A) (k : A -> Rand B) (tape : Tape)
      (x : B * Tape) :
  (a <- c ;; k a) tape = Ok x ->
  exists a tape', c tape = Ok (a, tape') /\ k a tape' = Ok x.
Proof.
  simpl. destruct (c tape) as [[a tape']| |]; intro H; try discriminate.
  now exists a, tape'.
Qed.

Lemma randint_range (low high : Q) (tape tape' : Tape) (x : Z) :
  randint low high tape = Ok (x, tape') ->
  Util.py_int low <= x < Util.py_int high.
Proof.
  unfold randint.
  destruct (Z.ltb_spec (Util.py_int low) (Util.py_int high)); [|discriminate].
  destruct tape as [|raw tape]; [discriminate|]. intros [= <- _].
  pose proof (Z.mod_pos_bound raw (Util.py_int high - Util.py_int low)). lia.
Qed.

(** [int] cuts towards zero: it keeps the sign, and an integer is below
    the cut of a float only when it is below the float, and below a float
    only when it is not above its cut. *)
Lemma py_int_nonneg (q : Q) : (0 <= q)%Q -> 0 <= Util.py_int q.
Proof.
  intro H. unfold Util.py_int. apply Z.quot_pos; [|lia].
  unfold Qle in H; simpl in H. lia.
Qed.

Lemma py_int_above (n : Z) (q : Q) : n < Util.py_int q -> (inject_Z n < q)%Q.
Proof.
  unfold Util.py_int, Qlt; simpl. intro H.
  pose proof (Z.quot_rem' (Qnum q) (Z.pos (Qden q))) as E.
  pose proof (Z.rem_bound_abs (Qnum q) (Z.pos (Qden q)) ltac:(lia)) as B.
  nia.
Qed.

Lemma py_int_below (n : Z) (q : Q) : (inject_Z n < q)%Q -> n <= Util.py_int q.
Proof.
  unfold Util.py_int, Qlt; simpl. intro H.
  pose proof (Z.quot_rem' (Qnum q) (Z.pos (Qden q))) as E.
  pose proof (Z.rem_bound_abs (Qnum q) (Z.pos (Qden q)) ltac:(lia)) as B.
  nia.
Qed.

(** On integer bounds the cut does nothing. *)
Lemma py_int_inject (n : Z) : Util.py_int (inject_Z n) = n.
Proof. unfold Util.py_int; simpl. apply Z.quot_1_r. Qed.

Lemma py_int_inject_minus (a b : Z) :
  Util.py_int (inject_Z a - inject_Z b) = a - b.
Proof. unfold Util.py_int; simpl. rewrite Z.quot_1_r. lia. Qed.

(** *** Slices of an image *)

Section Crop.
Context {Pixel : Type}.

Lemma Forall_firstn {A : Type} (P : A -> Prop) (n : nat) :
  forall l, Forall P l -> Forall P (firstn n l).
Proof.
  induction n as [|n IH]; intros l H; simpl; [constructor|].
  destruct H; constructor; auto.
Qed.

Lemma Forall_skipn {A : Type} (P : A -> Prop) (n : nat) :
  forall l, Forall P l -> Forall P (skipn n l).
Proof.
  induction n as [|n IH]; intros l H; simpl; trivial.
  destruct H; [constructor|auto].
Qed.

Lemma slice_bound_inside (i n : Z) : 0 <= i <= n -> Util.slice_bound i n = i.
Proof.
  intro H. unfold Util.slice_bound.
  destruct (Z.ltb_spec i 0); lia.
Qed.

Lemma slice_length {A : Type} (a b n : Z) (l : list A) :
  0 <= a <= b -> b <= n -> Z.of_nat (length l) = n ->
  Z.of_nat (length (Util.slice a b n l)) = b - a.
Proof.
  intros Hab Hb Hl. unfold Util.slice.
  rewrite !slice_bound_inside by lia.
  rewrite length_firstn, length_skipn. lia.
Qed.

Lemma slice_Forall {A : Type} (P : A -> Prop) (a b n : Z) (l : list A) :
  Forall P l -> Forall P (Util.slice a b n l).
Proof. intro H. unfold Util.slice. now apply Forall_firstn, Forall_skipn. Qed.

(** A slice within the bounds of a well-formed image is a well-formed image
    of the size of the slice. *)
Lemma crop_well_formed (theImage : Util.Image Pixel) (y0 y1 x0 x1 : Z) :
  well_formed theImage ->
  0 <= y0 <= y1 -> y1 <= Util.shape0 theImage ->
  0 <= x0 <= x1 -> x1 <= Util.shape1 theImage ->
  well_formed (Util.crop theImage y0 y1 x0 x1) /\
  Util.shape0 (Util.crop theImage y0 y1 x0 x1) = y1 - y0 /\
  Util.shape1 (Util.crop theImage y0 y1 x0 x1) = x1 - x0.
Proof.
  intros (H0 & H1 & Hrows & Hcols) Hy Hy1 Hx Hx1.
  unfold well_formed, Util.crop, Util.slice_len; simpl.
  rewrite !slice_bound_inside by lia.
  repeat split; try lia.
  - rewrite length_map, (slice_length y0 y1 (Util.shape0 theImage)); lia.
  - apply Forall_map, slice_Forall. revert Hcols. apply Forall_impl.
    intros row Hrow. rewrite (slice_length x0 x1 (Util.shape1 theImage)); lia.
Qed.

Lemma slice_nth {A : Type} (a b n i : Z) (l : list A) :
  0 <= a <= b -> b <= n -> 0 <= i < b - a ->
  nth_error (Util.slice a b n l) (Z.to_nat i) = nth_error l (Z.to_nat (a + i)).
Proof.
  intros Hab Hb Hi. unfold Util.slice.
  rewrite !slice_bound_inside by lia.
  rewrite nth_error_firstn.
  destruct (Nat.ltb_spec (Z.to_nat i) (Z.to_nat (b - a))); [|lia].
  rewrite nth_error_skipn. f_equal. lia.
Qed.

(** The pixels of a slice within the bounds of the image are those of the
    image, moved by the corner of the slice. *)
Lemma crop_pixel (theImage : Util.Image Pixel) (y0 y1 x0 x1 i j : Z) :
  0 <= y0 <= y1 -> y1 <= Util.shape0 theImage ->
  0 <= x0 <= x1 -> x1 <= Util.shape1 theImage ->
  0 <= i < y1 - y0 -> 0 <= j < x1 - x0 ->
  pixel_at (Util.crop theImage y0 y1 x0 x1) i j
  = pixel_at theImage (y0 + i) (x0 + j).
Proof.
  intros Hy Hy1 Hx Hx1 Hi Hj. unfold pixel_at, Util.crop.
  cbn [Util.pixels]. rewrite nth_error_map, slice_nth by lia.
  destruct (nth_error (Util.pixels theImage) (Z.to_nat (y0 + i))) as [row|];
    [|reflexivity].
  simpl. now apply slice_nth.
Qed.

End Crop.

Section Sampler.
Context {Pixel : Type} {ops : Util.PixelOps Pixel}.
Variable self : MosaicDataSet.t Pixel.

(** One pass of the [while] loop that completes: where the rectangle is
    and what the labels are. *)
Lemma draw_spec (tape tape' : Tape) (tr : Trial) (doSearch : bool) :
  draw self tape = Ok ((tr, doSearch), tape') ->
  in_region self (rect tr) /\
  exists isPartial,
    Util.get_labels_in_rectangle (_theLabels self) (rect tr) (_minArea self)
                                 (_rejectPartial self)
    = Ok (curLabels tr, isPartial) /\
    doSearch = _rejectPartial self && isPartial.
Proof.
  unfold draw. intro H.
  apply bind_inv_ok in H. destruct H as (x & t1 & Hx & H).
  apply bind_inv_ok in H. destruct H as (y & t2 & Hy & H).
  apply bind_inv_ok in H. destruct H as ([o p] & t3 & Hclip & H).
  injection H as <- <- _.
  apply randint_range in Hx. apply randint_range in Hy.
  split; [unfold in_region; simpl; lia|].
  exists p. split; trivial. simpl.
  unfold lift in Hclip.
  destruct (Util.get_labels_in_rectangle _ _ _ _) as [[o' p']| |];
    try discriminate.
  now injection Hclip as <- <- _.
Qed.

Lemma search_spec (fuel : nat) :
  forall tape tape' tr,
    search self fuel tape = Ok (tr, tape') ->
    in_region self (rect tr) /\
    Util.get_labels_in_rectangle (_theLabels self) (rect tr) (_minArea self)
                                 (_rejectPartial self)
    = Ok (curLabels tr, false).
Proof.
  induction fuel as [|fuel IH]; intros tape tape' tr H; [discriminate|].
  simpl in H. destruct (draw self tape) as [[[tr0 b] t1]| |] eqn:E;
    try discriminate.
  destruct b; [now apply IH in H|]. injection H as <- <-.
  apply draw_spec in E. destruct E as (Hr & p & Hclip & Hb).
  split; trivial. destruct p; trivial.
  destruct (ClipMore.scan_partial_origin _ _ _ _ _ _ Hclip) as [Hrp _].
  rewrite Hrp in Hb. discriminate.
Qed.

Lemma trial_spec (tape tape' : Tape) (tr : Trial) :
  trial self tape = Ok (tr, tape') ->
  in_region self (rect tr) /\
  Util.get_labels_in_rectangle (_theLabels self) (rect tr) (_minArea self)
                               (_rejectPartial self)
  = Ok (curLabels tr, false).
Proof. apply search_spec. Qed.

(** X14.  The rectangle of a completed trial is a tile of the configured
    size placed in the sampling region, whose bounds the draw cuts to
    integers with [int]: its left column is in
    [[int(_mosaicXMin), int(_mosaicXMax - _imgWidth))], its top row in
    [[int(_mosaicYMin), int(_mosaicYMax - _imgHeight))], and it is
    [_imgWidth] wide and [_imgHeight] high.  With a bound that is no
    integer the tile can so start before [_mosaicXMin] or [_mosaicYMin], by
    less than a pixel. *)
Theorem X14_trial_in_region (tape tape' : Tape) (tr : Trial) :
  trial self tape = Ok (tr, tape') -> in_region self (rect tr).
Proof. intro H. now apply search_spec in H. Qed.

(** X15.  The labels of a completed trial are the clip of the mosaic labels
    in its rectangle, and that clip reported no partial label: with
    [_rejectPartial] the loop never hands over a rectangle that cuts a
    label. *)
Theorem X15_trial_labels_are_a_whole_clip (tape tape' : Tape) (tr : Trial) :
  trial self tape = Ok (tr, tape') ->
  Util.get_labels_in_rectangle (_theLabels self) (rect tr) (_minArea self)
                               (_rejectPartial self)
  = Ok (curLabels tr, false).
Proof. intro H. now apply search_spec in H. Qed.

(** The loop run on trials that stay below [_minLabels] and then on one
    that reaches it. *)
Lemma iterate_accepts (k : nat) :
  forall n st tape trs t1 tr t2,
    (k < n)%nat ->
    trials self k tape = Ok (trs, t1) ->
    Forall (fun t => numLabels t < _minLabels self) trs ->
    trial self t1 = Ok (tr, t2) ->
    _minLabels self <= numLabels tr ->
    iterate self n st tape = Ok (store (fold_left store trs st) tr, t2).
Proof.
  induction k as [|k IH]; intros n st tape trs t1 tr t2 Hn Htrs Hlow Htr Hacc;
    (destruct n as [|n]; [lia|]); simpl in Htrs |- *.
  - injection Htrs as <- <-. rewrite Htr. simpl.
    destruct (Z.leb_spec (_minLabels self) (numLabels tr)); [reflexivity|lia].
  - destruct (trial self tape) as [[t0 t0']| |]; try discriminate.
    destruct (trials self k t0') as [[trs' t1']| |] eqn:E; try discriminate.
    injection Htrs as <- <-. inversion Hlow as [|? ? Hlt Hlow']; subst.
    destruct (Z.leb_spec (_minLabels self) (numLabels t0)); [lia|].
    simpl fold_left. apply (IH n _ _ _ _ _ _ ltac:(lia) E Hlow' Htr Hacc).
Qed.

(** X16.  When the trials of the loop stay below [_minLabels] until one
    reaches it, within [_maxIter] trials, the loop stops there and that
    trial is the one stored: [get_image] delivers it, and no later draw is
    spent on the search. *)
Theorem X16_accepted_trial_is_delivered (outUBYTE : bool) (lblFormat : Z)
        (k : nat) (tape t1 t2 : Tape) (trs : list Trial) (tr : Trial) :
  (k < Z.to_nat (_maxIter self))%nat ->
  trials self k tape = Ok (trs, t1) ->
  Forall (fun t => numLabels t < _minLabels self) trs ->
  trial self t1 = Ok (tr, t2) ->
  _minLabels self <= numLabels tr ->
  iterate self (Z.to_nat (_maxIter self)) initial tape = Ok (recorded tr, t2) /\
  get_image self outUBYTE lblFormat tape
  = deliver self (rect tr) (curLabels tr) outUBYTE lblFormat t2.
Proof.
  intros Hk Htrs Hlow Htr Hacc.
  pose proof (iterate_accepts k _ initial _ _ _ _ _ Hk Htrs Hlow Htr Hacc) as Hit.
  assert (Hst : store (fold_left store trs initial) tr = recorded tr).
  { destruct trs as [|t trs]; [apply store_initial|].
    destruct (fold_store_initial (t :: trs)) as (best & Hin & -> & _);
      [congruence|].
    rewrite Forall_forall in Hlow. specialize (Hlow best Hin). simpl in Hlow.
    rewrite store_recorded.
    destruct (Z.ltb_spec (numLabels best) (numLabels tr)); [reflexivity|lia]. }
  rewrite Hst in Hit. split; trivial.
  now rewrite (get_image_after self _ _ _ _ _ Hit).
Qed.

(** X22.  With [_minLabels <= 0] and [_maxIter >= 1] the search is over
    after its first trial, whatever that trial holds: [get_image] delivers
    the first completed trial. *)
Theorem X22_no_minimum_first_trial (outUBYTE : bool) (lblFormat : Z)
        (tape t1 : Tape) (tr : Trial) :
  _minLabels self <= 0 -> 1 <= _maxIter self ->
  trial self tape = Ok (tr, t1) ->
  get_image self outUBYTE lblFormat tape
  = deliver self (rect tr) (curLabels tr) outUBYTE lblFormat t1.
Proof.
  intros Hmin Hmax Htr.
  assert (Hk : (0 < Z.to_nat (_maxIter self))%nat) by lia.
  pose proof (numLabels_nonneg tr) as Hn.
  assert (Hacc : _minLabels self <= numLabels tr) by lia.
  pose proof (iterate_accepts 0 _ initial tape [] tape tr t1 Hk eq_refl
                              (Forall_nil _) Htr Hacc) as Hit.
  simpl fold_left in Hit. rewrite store_initial in Hit.
  now rewrite (get_image_after self _ _ _ _ _ Hit).
Qed.

(** X23.  With [_rejectPartial], mosaic labels of positive width and height
    that satisfy the area invariant, and [_minArea <= 1], the labels of a
    completed trial are the mosaic labels that pass the candidate test,
    each lying inside the rectangle of the trial, in order and translated
    to its origin. *)
Theorem X23_whole_labels_only (tape tape' : Tape) (tr : Trial) :
  _rejectPartial self = true ->
  0 <= _imgWidth self -> 0 <= _imgHeight self ->
  Forall (fun l => proper l /\ area_invariant l) (_theLabels self) ->
  (_minArea self <= 1)%Q ->
  trial self tape = Ok (tr, tape') ->
  (forall l, In l (_theLabels self) ->
             Util.is_candidate l (rect tr) = true -> contained l (rect tr)) /\
  curLabels tr
  = map (translate (rect tr))
        (filter (fun l => Util.is_candidate l (rect tr)) (_theLabels self)).
Proof.
  intros Hrp Hw Hh Hls Hm Htr. apply trial_spec in Htr.
  destruct Htr as [(_ & _ & Hxr & _ & _ & Hyb) Hclip]. rewrite Hrp in Hclip.
  assert (Hr : rect_ordered (rect tr)) by (unfold rect_ordered; lia).
  exact (ClipMore.accepted_clip _ _ _ _ Hr Hls Hm Hclip).
Qed.

(** X24.  For mosaic labels with [xLeft <= xRight] and [yTop <= yBottom] and
    a tile size that is not negative, every label of a completed trial has
    its box between 0 and [_imgWidth] in x and between 0 and [_imgHeight]
    in y, and an area field equal to the area of that box. *)
Theorem X24_trial_labels_in_tile (tape tape' : Tape) (tr : Trial) :
  0 <= _imgWidth self -> 0 <= _imgHeight self ->
  Forall ordered (_theLabels self) ->
  trial self tape = Ok (tr, tape') ->
  Forall (within_tile (mkRect 0 0 (_imgWidth self) (_imgHeight self)))
         (curLabels tr).
Proof.
  intros Hw Hh Hls Htr. apply trial_spec in Htr.
  destruct Htr as [(_ & _ & Hxr & _ & _ & Hyb) Hclip].
  apply ClipMore.clip_within_tile in Hclip; trivial;
    [|unfold rect_ordered; lia].
  revert Hclip. apply Forall_impl. unfold within_tile; simpl. intros l. lia.
Qed.

(** *** The tile of a rectangle of the region *)

(** In a well-formed mosaic on which the sampling region lies, the pixels
    under a rectangle of the region form a well-formed image of the size of
    the tile. *)
Lemma region_tile (r : Rect) :
  well_formed (_theMosaic self) ->
  (0 <= _mosaicXMin self)%Q ->
  (_mosaicXMax self <= inject_Z (Util.shape1 (_theMosaic self)))%Q ->
  (0 <= _mosaicYMin self)%Q ->
  (_mosaicYMax self <= inject_Z (Util.shape0 (_theMosaic self)))%Q ->
  0 <= _imgWidth self -> 0 <= _imgHeight self ->
  in_region self r ->
  let outImage :=
    Util.crop (_theMosaic self) (ryTop r) (ryBottom r) (rxLeft r) (rxRight r) in
  well_formed outImage /\
  Util.shape0 outImage = _imgHeight self /\
  Util.shape1 outImage = _imgWidth self.
Proof.
  intros Hwf Hx0 Hx1 Hy0 Hy1 Hw Hh (Ha & Hb & Hc & Hd & He & Hf). cbv zeta.
  apply py_int_nonneg in Hx0. apply py_int_nonneg in Hy0.
  apply py_int_above in Hb. apply py_int_above in He.
  assert (Hxr : rxLeft r + _imgWidth self < Util.shape1 (_theMosaic self)).
  { rewrite Zlt_Qlt, inject_Z_plus. lra. }
  assert (Hyb : ryTop r + _imgHeight self < Util.shape0 (_theMosaic self)).
  { rewrite Zlt_Qlt, inject_Z_plus. lra. }
  destruct (crop_well_formed (_theMosaic self) (ryTop r) (ryBottom r)
                             (rxLeft r) (rxRight r) Hwf)
    as (Hwf' & Hs0 & Hs1); try lia.
  split; [exact Hwf'|split; lia].
Qed.

(** And its pixels are those of the mosaic under the rectangle. *)
Lemma region_tile_pixels (r : Rect) (i j : Z) :
  (0 <= _mosaicXMin self)%Q ->
  (_mosaicXMax self <= inject_Z (Util.shape1 (_theMosaic self)))%Q ->
  (0 <= _mosaicYMin self)%Q ->
  (_mosaicYMax self <= inject_Z (Util.shape0 (_theMosaic self)))%Q ->
  in_region self r ->
  0 <= i < _imgHeight self -> 0 <= j < _imgWidth self ->
  pixel_at (Util.crop (_theMosaic self) (ryTop r) (ryBottom r)
                      (rxLeft r) (rxRight r)) i j
  = pixel_at (_theMosaic self) (ryTop r + i) (rxLeft r + j).
Proof.
  intros Hx0 Hx1 Hy0 Hy1 (Ha & Hb & Hc & Hd & He & Hf) Hi Hj.
  apply py_int_nonneg in Hx0. apply py_int_nonneg in Hy0.
  apply py_int_above in Hb. apply py_int_above in He.
  assert (Hxr : rxLeft r + _imgWidth self < Util.shape1 (_theMosaic self)).
  { rewrite Zlt_Qlt, inject_Z_plus. lra. }
  assert (Hyb : ryTop r + _imgHeight self < Util.shape0 (_theMosaic self)).
  { rewrite Zlt_Qlt, inject_Z_plus. lra. }
  apply crop_pixel; lia.
Qed.

(** *** The delivery of a rectangle of the region *)

Lemma flips_length (theImage : Util.Image Pixel) (theLabels : list Label)
      (flipValue : Z) :
  length (snd (Util.flips theImage theLabels flipValue)) = length theLabels.
Proof.
  unfold Util.flips.
  destruct (negb (Z.land flipValue 1 =? 0)), (negb (Z.land flipValue 2 =? 0));
    simpl; now rewrite ?length_map.
Qed.

(** With five draws on the tape, a tile of at least one pixel each way and
    a supported label format, the delivery of a rectangle of the region
    returns: the transformed pixels of the rectangle, and the conversion of
    the transformed labels, as many as were given. *)
Lemma deliver_total (r : Rect) (ls : list Label) (outUBYTE : bool)
      (lblFormat : Z) (d1 d2 d3 d4 d5 : Z) (tape : Tape) :
  well_formed (_theMosaic self) ->
  (0 <= _mosaicXMin self)%Q ->
  (_mosaicXMax self <= inject_Z (Util.shape1 (_theMosaic self)))%Q ->
  (0 <= _mosaicYMin self)%Q ->
  (_mosaicYMax self <= inject_Z (Util.shape0 (_theMosaic self)))%Q ->
  1 <= _imgWidth self -> 1 <= _imgHeight self ->
  in_region self r ->
  lblFormat = 0 \/ (lblFormat = 1 /\ _imgWidth self <> 1 /\ _imgHeight self <> 1) ->
  let outImage :=
    Util.crop (_theMosaic self) (ryTop r) (ryBottom r) (rxLeft r) (rxRight r) in
  let transformed :=
    Util.transform_image outImage ls (d1 mod 4)
      (Qmake (d2 mod 2 ^ 53) (2 ^ 53)) (_brightScale self)
      (Qmake (d3 mod 2 ^ 53) (2 ^ 53) * (_maxVSigma self - _minVSigma self)
       + _minVSigma self)%Q
      (Qmake (d4 mod 2 ^ 53) (2 ^ 53) * (_maxVX self - _minVX self)
       + _minVX self)%Q
      (Qmake (d5 mod 2 ^ 53) (2 ^ 53) * (_maxVY self - _minVY self)
       + _minVY self)%Q in
  exists labels,
    Util.convert_objdetect_labels (Util.AbsoluteLabels (snd transformed))
                                  (_imgWidth self) (_imgHeight self) lblFormat
    = Ok labels /\
    count labels = length ls /\
    deliver self r ls outUBYTE lblFormat (d1 :: d2 :: d3 :: d4 :: d5 :: tape)
    = Ok ((if outUBYTE then Util.img_as_ubyte (fst transformed)
           else fst transformed, labels), tape).
Proof.
  intros Hwf Hx0 Hx1 Hy0 Hy1 Hw Hh Hreg Hfmt. cbv zeta.
  destruct (region_tile r Hwf Hx0 Hx1 Hy0 Hy1 ltac:(lia) ltac:(lia) Hreg)
    as (_ & Hs0 & Hs1).
  match goal with
  | |- context [Util.convert_objdetect_labels ?l ?w ?h ?f] =>
      destruct (convert_ok l w h f Hfmt) as (labels & Hconv)
  end.
  exists labels. split; [exact Hconv|]. split.
  - rewrite (ConvertMore.convert_count _ _ _ _ _ Hconv). simpl.
    unfold Util.transform_image. simpl. apply flips_length.
  - apply deliver_returns; [|exact Hconv].
    unfold Util.no_pixel. rewrite Hs0, Hs1.
    destruct (Z.eqb_spec (_imgHeight self) 0); [lia|].
    destruct (Z.eqb_spec (_imgWidth self) 0); [lia|]. reflexivity.
Qed.

(** *** Exceptions of the whole run *)

Lemma draw_empty_range (tape : Tape) :
  Util.py_int (_mosaicXMax self - inject_Z (_imgWidth self))
  <= Util.py_int (_mosaicXMin self) \/
  (Util.py_int (_mosaicYMax self - inject_Z (_imgHeight self))
   <= Util.py_int (_mosaicYMin self) /\ tape <> []) ->
  draw self tape = Raise ValueError.
Proof.
  intro H. unfold draw. simpl. unfold randint at 1.
  destruct (Z.ltb_spec (Util.py_int (_mosaicXMin self))
              (Util.py_int (_mosaicXMax self - inject_Z (_imgWidth self))));
    [|reflexivity].
  destruct H as [H|[H Hne]]; [lia|].
  destruct tape as [|raw tape]; [congruence|].
  unfold randint.
  destruct (Z.ltb_spec (Util.py_int (_mosaicYMin self))
              (Util.py_int (_mosaicYMax self - inject_Z (_imgHeight self))));
    [lia|reflexivity].
Qed.

(** X17.  When the tile does not fit in the sampling region, because
    [int(_mosaicXMax - _imgWidth) <= int(_mosaicXMin)] or, once the first
    draw is made, [int(_mosaicYMax - _imgHeight) <= int(_mosaicYMin)],
    [get_image] with [_maxIter >= 1] raises the [ValueError] of
    [np.random.randint]; [int] is the cut of the bounds to integers that
    the draw makes, the identity on integer bounds. *)
Theorem X17_empty_range_raises (outUBYTE : bool) (lblFormat : Z) (tape : Tape) :
  1 <= _maxIter self ->
  Util.py_int (_mosaicXMax self - inject_Z (_imgWidth self))
  <= Util.py_int (_mosaicXMin self) \/
  (Util.py_int (_mosaicYMax self - inject_Z (_imgHeight self))
   <= Util.py_int (_mosaicYMin self) /\ tape <> []) ->
  get_image self outUBYTE lblFormat tape = Raise ValueError.
Proof.
  intros Hmax H. unfold get_image. apply bind_raise.
  destruct (Z.to_nat (_maxIter self)) as [|n] eqn:E; [lia|].
  simpl. unfold trial. simpl. now rewrite (draw_empty_range tape H).
Qed.

Section NoException.
Hypothesis x_range :
  Util.py_int (_mosaicXMin self)
  < Util.py_int (_mosaicXMax self - inject_Z (_imgWidth self)).
Hypothesis y_range :
  Util.py_int (_mosaicYMin self)
  < Util.py_int (_mosaicYMax self - inject_Z (_imgHeight self)).
Hypothesis areas : forall l, In l (_theLabels self) -> area l <> 0.
Hypothesis mosaic : well_formed (_theMosaic self).
Hypothesis x_min : (0 <= _mosaicXMin self)%Q.
Hypothesis x_max :
  (_mosaicXMax self <= inject_Z (Util.shape1 (_theMosaic self)))%Q.
Hypothesis y_min : (0 <= _mosaicYMin self)%Q.
Hypothesis y_max :
  (_mosaicYMax self <= inject_Z (Util.shape0 (_theMosaic self)))%Q.
Hypothesis width : 1 <= _imgWidth self.
Hypothesis height : 1 <= _imgHeight self.

Lemma randint_no_raise (low high : Q) (tape : Tape) (e : exn) :
  Util.py_int low < Util.py_int high -> randint low high tape <> Raise e.
Proof.
  intro H. unfold randint. apply Z.ltb_lt in H. rewrite H.
  destruct tape; discriminate.
Qed.

Lemma draw_no_raise (tape : Tape) (e : exn) : draw self tape <> Raise e.
Proof.
  unfold draw. intro H.
  apply bind_inv in H. destruct H as [H|(x & t1 & _ & H)];
    [now apply randint_no_raise in H|].
  apply bind_inv in H. destruct H as [H|(y & t2 & _ & H)];
    [now apply randint_no_raise in H|].
  apply bind_inv in H. destruct H as [H|([o p] & t3 & _ & H)];
    [|discriminate].
  unfold lift in H.
  match type of H with
  | context [Util.get_labels_in_rectangle ?ls ?r ?m ?rp] =>
      destruct (ClipMore.clip_returns ls r m rp) as (o & p & Hclip);
        [intros l Hl _; now apply areas|rewrite Hclip in H]
  end.
  discriminate.
Qed.

Lemma search_no_raise (fuel : nat) :
  forall tape e, search self fuel tape <> Raise e.
Proof.
  induction fuel as [|fuel IH]; intros tape e H; [discriminate|].
  simpl in H. destruct (draw self tape) as [[[tr b] t1]| |] eqn:E;
    try discriminate.
  - destruct b; [now apply IH in H|discriminate].
  - now apply draw_no_raise in E.
Qed.

Lemma iterate_no_raise (n : nat) :
  forall st tape e, iterate self n st tape <> Raise e.
Proof.
  induction n as [|n IH]; intros st tape e H; [discriminate|].
  simpl in H. destruct (trial self tape) as [[tr t1]| |] eqn:E;
    try discriminate.
  - destruct (_minLabels self <=? numLabels tr); [discriminate|].
    now apply IH in H.
  - now apply search_no_raise in E.
Qed.

(** The locals after the loop hold a trial of the run. *)
Lemma iterate_stores_trial (n : nat) :
  forall st tape st' tape' r ls,
    iterate self n st tape = Ok (st', tape') ->
    (forall r0, bestRect st = Some r0 -> in_region self r0) ->
    bestRect st' = Some r -> bestLabels st' = Some ls ->
    in_region self r.
Proof.
  induction n as [|n IH]; intros st tape st' tape' r ls H Hst Hr Hls;
    simpl in H.
  - injection H as <- _. now apply Hst.
  - destruct (trial self tape) as [[tr t1]| |] eqn:E; try discriminate.
    apply trial_spec in E. destruct E as [Hreg _].
    assert (Hst' : forall r0, bestRect (store st tr) = Some r0 ->
                              in_region self r0).
    { intros r0. unfold store.
      destruct ((maxLabels st <? numLabels tr) || (maxLabels st =? 0));
        [simpl; now intros [= <-]|apply Hst]. }
    destruct (_minLabels self <=? numLabels tr).
    + injection H as <- _. now apply Hst'.
    + exact (IH _ _ _ _ _ _ H Hst' Hr Hls).
Qed.

Lemma deliver_no_raise (r : Rect) (ls : list Label) (outUBYTE : bool)
      (lblFormat : Z) (tape : Tape) (e : exn) :
  in_region self r ->
  lblFormat = 0 \/ (lblFormat = 1 /\ _imgWidth self <> 1 /\ _imgHeight self <> 1) ->
  deliver self r ls outUBYTE lblFormat tape <> Raise e.
Proof.
  intros Hreg Hfmt H. unfold deliver in H.
  apply bind_inv in H. destruct H as [H|(x1 & t1 & _ & H)];
    [now apply randint_no_raise in H|].
  apply bind_inv in H. destruct H as [H|(x2 & t2 & _ & H)];
    [destruct t1; discriminate|].
  apply bind_inv in H. destruct H as [H|(x3 & t3 & _ & H)];
    [destruct t2; discriminate|].
  apply bind_inv in H. destruct H as [H|(x4 & t4 & _ & H)];
    [destruct t3; discriminate|].
  apply bind_inv in H. destruct H as [H|(x5 & t5 & _ & H)];
    [destruct t4; discriminate|].
  apply bind_inv in H. destruct H as [H|(x6 & t6 & _ & H)].
  - unfold lift, Util.call_transform_image, Util.no_pixel in H.
    destruct (region_tile r mosaic x_min x_max y_min y_max
                          ltac:(lia) ltac:(lia) Hreg) as (_ & Hs0 & Hs1).
    rewrite Hs0, Hs1 in H.
    destruct (Z.eqb_spec (_imgHeight self) 0); [lia|].
    destruct (Z.eqb_spec (_imgWidth self) 0); [lia|]. discriminate.
  - apply bind_inv in H. destruct H as [H|(x7 & t7 & _ & H)]; [|discriminate].
    unfold lift in H.
    match type of H with
    | context [Util.convert_objdetect_labels ?l ?w ?h ?f] =>
        destruct (convert_ok l w h f Hfmt) as (out & Hout); rewrite Hout in H
    end.
    discriminate.
Qed.

(** X18.  [get_image] raises no exception when [_maxIter >= 1], the mosaic
    is a well-formed image on which the sampling region lies, the tile is
    at least one pixel wide and high and fits in the region
    ([int(_mosaicXMin) < int(_mosaicXMax - _imgWidth)], and alike in y,
    [int] being the cut to an integer that the draw makes), no mosaic label
    has a zero area field and the label format is 0, or 1 with a tile that
    is not one pixel wide or high.  And when its loop ends with the five
    draws of the transformation left to make, [get_image] returns. *)
Theorem X18_get_image_raises_nothing (outUBYTE : bool) (lblFormat : Z)
        (tape : Tape) :
  1 <= _maxIter self ->
  lblFormat = 0 \/ (lblFormat = 1 /\ _imgWidth self <> 1 /\ _imgHeight self <> 1) ->
  (forall e, get_image self outUBYTE lblFormat tape <> Raise e) /\
  (forall st d1 d2 d3 d4 d5 tape',
      iterate self (Z.to_nat (_maxIter self)) initial tape
      = Ok (st, d1 :: d2 :: d3 :: d4 :: d5 :: tape') ->
      exists result, get_image self outUBYTE lblFormat tape = Ok (result, tape')).
Proof.
  intros Hmax Hfmt.
  assert (Hn : (1 <= Z.to_nat (_maxIter self))%nat) by lia.
  split.
  - intros e H.
    destruct (iterate self (Z.to_nat (_maxIter self)) initial tape)
      as [[st t1]| |] eqn:E.
    + rewrite (get_image_after self _ _ _ _ _ E) in H.
      destruct (iterate_defined self _ _ _ _ Hn E) as (best & Hst).
      assert (Hreg : in_region self (rect best)).
      { apply (iterate_stores_trial _ _ _ _ _ (rect best) (curLabels best) E);
          [discriminate|now rewrite Hst..]. }
      rewrite Hst in H. simpl in H. now apply deliver_no_raise in H.
    + now apply iterate_no_raise in E.
    + unfold get_image in H. simpl in H. rewrite E in H. discriminate.
  - intros st d1 d2 d3 d4 d5 tape' E.
    rewrite (get_image_after self _ _ _ _ _ E).
    destruct (iterate_defined self _ _ _ _ Hn E) as (best & Hst).
    assert (Hreg : in_region self (rect best)).
    { apply (iterate_stores_trial _ _ _ _ _ (rect best) (curLabels best) E);
        [discriminate|now rewrite Hst..]. }
    rewrite Hst. simpl.
    destruct (deliver_total (rect best) (curLabels best) outUBYTE lblFormat
                            d1 d2 d3 d4 d5 tape' mosaic x_min x_max y_min y_max
                            width height Hreg Hfmt)
      as (labels & _ & _ & Hd).
    rewrite Hd. eauto.
Qed.

End NoException.

(** *** The best effort *)

Lemma trials_spec (n : nat) :
  forall tape trs tape',
    trials self n tape = Ok (trs, tape') ->
    Forall (fun tr => in_region self (rect tr)) trs.
Proof.
  induction n as [|n IH]; intros tape trs tape' H; simpl in H.
  - injection H as <- _. constructor.
  - destruct (trial self tape) as [[tr t1]| |] eqn:Et; try discriminate.
    destruct (trials self n t1) as [[trs' t2]| |] eqn:E; try discriminate.
    injection H as <- _. constructor.
    + now apply trial_spec in Et.
    + now apply IH in E.
Qed.

(** C2, amended.  When the [_maxIter >= 1] trials of the loop all complete
    with fewer than [_minLabels] labels, the mosaic is a well-formed image
    on which the sampling region lies, the tile is at least one pixel wide
    and high and the label format is 0, or 1 with a tile that is not one
    pixel wide or high, [get_image] returns: there is a trial [best] of the
    run whose label count is the largest of the run, below [_minLabels] as
    it is; the tile under its rectangle has [_imgHeight] rows and
    [_imgWidth] columns, which are the pixels of the mosaic under the
    rectangle; and the result is the transformation of that tile, made with
    the five draws that follow the loop, with the conversion of the
    transformed labels of [best], as many as [best] has. *)
Theorem C2_best_effort_returns (outUBYTE : bool) (lblFormat : Z)
        (tape tape' : Tape) (d1 d2 d3 d4 d5 : Z) (trs : list Trial) :
  1 <= _maxIter self ->
  trials self (Z.to_nat (_maxIter self)) tape
  = Ok (trs, d1 :: d2 :: d3 :: d4 :: d5 :: tape') ->
  Forall (fun tr => numLabels tr < _minLabels self) trs ->
  well_formed (_theMosaic self) ->
  (0 <= _mosaicXMin self)%Q ->
  (_mosaicXMax self <= inject_Z (Util.shape1 (_theMosaic self)))%Q ->
  (0 <= _mosaicYMin self)%Q ->
  (_mosaicYMax self <= inject_Z (Util.shape0 (_theMosaic self)))%Q ->
  1 <= _imgWidth self -> 1 <= _imgHeight self ->
  lblFormat = 0 \/ (lblFormat = 1 /\ _imgWidth self <> 1 /\ _imgHeight self <> 1) ->
  exists best labels,
    In best trs /\
    (forall t, In t trs -> numLabels t <= numLabels best) /\
    numLabels best < _minLabels self /\
    let tile :=
      Util.crop (_theMosaic self) (ryTop (rect best)) (ryBottom (rect best))
                (rxLeft (rect best)) (rxRight (rect best)) in
    let transformed :=
      Util.transform_image tile (curLabels best) (d1 mod 4)
        (Qmake (d2 mod 2 ^ 53) (2 ^ 53)) (_brightScale self)
        (Qmake (d3 mod 2 ^ 53) (2 ^ 53) * (_maxVSigma self - _minVSigma self)
         + _minVSigma self)%Q
        (Qmake (d4 mod 2 ^ 53) (2 ^ 53) * (_maxVX self - _minVX self)
         + _minVX self)%Q
        (Qmake (d5 mod 2 ^ 53) (2 ^ 53) * (_maxVY self - _minVY self)
         + _minVY self)%Q in
    well_formed tile /\
    Util.shape0 tile = _imgHeight self /\
    Util.shape1 tile = _imgWidth self /\
    (forall i j, 0 <= i < _imgHeight self -> 0 <= j < _imgWidth self ->
                 pixel_at tile i j
                 = pixel_at (_theMosaic self) (ryTop (rect best) + i)
                            (rxLeft (rect best) + j)) /\
    Util.convert_objdetect_labels (Util.AbsoluteLabels (snd transformed))
                                  (_imgWidth self) (_imgHeight self) lblFormat
    = Ok labels /\
    Z.of_nat (count labels) = numLabels best /\
    get_image self outUBYTE lblFormat tape
    = Ok ((if outUBYTE then Util.img_as_ubyte (fst transformed)
           else fst transformed, labels), tape').
Proof.
  intros Hmax Htrs Hlow Hwf Hx0 Hx1 Hy0 Hy1 Hw Hh Hfmt.
  assert (Hne : trs <> []).
  { apply trials_length in Htrs. destruct trs; [simpl in Htrs; lia|congruence]. }
  destruct (fold_store_initial trs Hne) as (best & Hin & Hst & Hbest).
  pose proof (iterate_exhausted self _ initial _ _ _ Htrs Hlow) as Hit.
  rewrite Hst in Hit.
  pose proof (get_image_after self outUBYTE lblFormat _ _ _ Hit) as Hget.
  simpl in Hget.
  assert (Hreg : in_region self (rect best)).
  { apply trials_spec in Htrs. rewrite Forall_forall in Htrs. now apply Htrs. }
  destruct (deliver_total (rect best) (curLabels best) outUBYTE lblFormat
                          d1 d2 d3 d4 d5 tape' Hwf Hx0 Hx1 Hy0 Hy1 Hw Hh
                          Hreg Hfmt)
    as (labels & Hconv & Hcount & Hd).
  destruct (region_tile (rect best) Hwf Hx0 Hx1 Hy0 Hy1 ltac:(lia) ltac:(lia)
                        Hreg) as (Htile & Hs0 & Hs1).
  exists best, labels.
  split; [exact Hin|]. split; [exact Hbest|].
  split; [rewrite Forall_forall in Hlow; now apply Hlow|].
  cbv zeta.
  split; [exact Htile|]. split; [exact Hs0|]. split; [exact Hs1|].
  split; [intros i j Hi Hj; now apply region_tile_pixels|].
  split; [exact Hconv|].
  split; [unfold numLabels; now rewrite Hcount|].
  now rewrite Hget.
Qed.

(** *** What is delivered *)

Lemma deliver_count (r : Rect) (ls : list Label) (outUBYTE : bool)
      (lblFormat : Z) (tape tape' : Tape) (img : Util.Image Pixel)
      (labels : Util.Labels) :
  deliver self r ls outUBYTE lblFormat tape = Ok ((img, labels), tape') ->
  count labels = length ls.
Proof.
  unfold deliver. intro H.
  apply bind_inv_ok in H. destruct H as (x1 & t1 & _ & H).
  apply bind_inv_ok in H. destruct H as (x2 & t2 & _ & H).
  apply bind_inv_ok in H. destruct H as (x3 & t3 & _ & H).
  apply bind_inv_ok in H. destruct H as (x4 & t4 & _ & H).
  apply bind_inv_ok in H. destruct H as (x5 & t5 & _ & H).
  apply bind_inv_ok in H. destruct H as (tf & t6 & Htf & H).
  apply bind_inv_ok in H. destruct H as (out & t7 & Hconv & H).
  injection H as _ <- _.
  unfold lift, Util.call_transform_image in Htf.
  destruct (Util.no_pixel _); [discriminate|]. injection Htf as <- _.
  unfold lift in Hconv.
  match type of Hconv with
  | context [Util.convert_objdetect_labels ?l ?w ?h ?f] =>
      destruct (Util.convert_objdetect_labels l w h f) as [out'| |] eqn:E;
        try discriminate;
      pose proof (ConvertMore.convert_count l w h f out' E) as Hc
  end.
  injection Hconv as <- _. rewrite Hc. simpl.
  unfold Util.transform_image. simpl. apply flips_length.
Qed.

(** X21.  When [get_image] returns, the number of labels it returns is the
    best label count of its search: the flips and the conversion neither
    drop nor add a label. *)
Theorem X21_returned_count_is_best_count (outUBYTE : bool) (lblFormat : Z)
        (tape tape' : Tape) (img : Util.Image Pixel) (labels : Util.Labels) :
  get_image self outUBYTE lblFormat tape = Ok ((img, labels), tape') ->
  exists st t1,
    iterate self (Z.to_nat (_maxIter self)) initial tape = Ok (st, t1) /\
    Z.of_nat (count labels) = maxLabels st.
Proof.
  intro H.
  destruct (iterate self (Z.to_nat (_maxIter self)) initial tape)
    as [[st t1]| |] eqn:E.
  - exists st, t1. split; trivial.
    rewrite (get_image_after self _ _ _ _ _ E) in H.
    destruct (iterate_stores self _ _ _ _ _ E) as (trs & ->).
    destruct (fold_store_shape trs) as [Hs|(best & Hs)]; rewrite Hs in H |- *;
      simpl in H; [discriminate|].
    apply deliver_count in H. simpl. unfold numLabels. now rewrite H.
  - unfold get_image in H. simpl in H. rewrite E in H. discriminate.
  - unfold get_image in H. simpl in H. rewrite E in H. discriminate.
Qed.

End Sampler.

(** *** The pixels of a tile *)

Section Tiles.
Context {Pixel : Type} {ops : Util.PixelOps Pixel}.

(** X19.  When the mosaic is a well-formed image, the sampling region lies
    on it and the tile size is not negative, the pixels cut out for a
    completed trial form a well-formed image of exactly [_imgHeight] rows
    and [_imgWidth] columns. *)
Theorem X19_tile_has_the_configured_size (self : MosaicDataSet.t Pixel)
        (tape tape' : Tape) (tr : Trial) :
  well_formed (_theMosaic self) ->
  (0 <= _mosaicXMin self)%Q ->
  (_mosaicXMax self <= inject_Z (Util.shape1 (_theMosaic self)))%Q ->
  (0 <= _mosaicYMin self)%Q ->
  (_mosaicYMax self <= inject_Z (Util.shape0 (_theMosaic self)))%Q ->
  0 <= _imgWidth self -> 0 <= _imgHeight self ->
  trial self tape = Ok (tr, tape') ->
  let outImage :=
    Util.crop (_theMosaic self) (ryTop (rect tr)) (ryBottom (rect tr))
              (rxLeft (rect tr)) (rxRight (rect tr)) in
  well_formed outImage /\
  Util.shape0 outImage = _imgHeight self /\
  Util.shape1 outImage = _imgWidth self.
Proof.
  intros Hwf Hx0 Hx1 Hy0 Hy1 Hw Hh Htr.
  apply trial_spec in Htr. destruct Htr as [Hreg _].
  exact (region_tile self (rect tr) Hwf Hx0 Hx1 Hy0 Hy1 Hw Hh Hreg).
Qed.

(** X20.  Two sampling regions stacked one above the other, the first
    ending where the second starts or before, give tiles that share no
    row of the mosaic: a trial of the first lies wholly above a trial of
    the second. *)
Theorem X20_stacked_regions_share_no_row (train validation : MosaicDataSet.t Pixel)
        (tape1 tape1' tape2 tape2' : Tape) (tr1 tr2 : Trial) :
  (_mosaicYMax train <= _mosaicYMin validation)%Q ->
  trial train tape1 = Ok (tr1, tape1') ->
  trial validation tape2 = Ok (tr2, tape2') ->
  ryBottom (rect tr1) <= ryTop (rect tr2) /\
  forall x y, ~ (in_rect (rect tr1) x y /\ in_rect (rect tr2) x y).
Proof.
  intros Hsplit H1 H2.
  apply trial_spec in H1. apply trial_spec in H2.
  destruct H1 as ((_ & _ & _ & _ & He & Hf) & _).
  destruct H2 as ((_ & _ & _ & Hd & _ & _) & _).
  apply py_int_above in He.
  assert (Hlt : (inject_Z (ryBottom (rect tr1)) < _mosaicYMin validation)%Q).
  { rewrite Hf, inject_Z_plus. lra. }
  apply py_int_below in Hlt.
  split; [lia|]. intros x y. unfold in_rect. lia.
Qed.

End Tiles.

Import Sample.

Lemma blank_mosaic_well_formed : well_formed blank_mosaic.
Proof.
  unfold well_formed, blank_mosaic.
  cbn [Util.shape0 Util.shape1 Util.pixels].
  split; [lia|]. split; [lia|]. split; [now rewrite repeat_length|].
  apply Forall_forall. intros row H. apply repeat_spec in H. subst.
  now rewrite repeat_length.
Qed.

(** C2, as stated, fails: on a tile one pixel wide, with the default label
    format 1, the only trial of the run completes with one label, below the
    two asked for, and [get_image] raises the [ZeroDivisionError] of the
    division by [imgWidth - 1] in [convert_objdetect_labels]. *)
Lemma C2_one_pixel_tile_raises :
  let self := mkDataSet unit 1 10 2 (1 # 2) 1 (1 # 10) (1 # 2) (5 # 4)
                        (2 # 5) (3 # 5) (2 # 5) (3 # 5) false
                        blank_mosaic [mkLabel 0 25 20 26 30 10] 0 100 0 100 in
  let tape := [25; 20; 0; 1; 2; 3; 4] in
  let tr := mkTrial (mkRect 25 20 26 30) [mkLabel 0 0 0 1 10 10] in
  1 <= _maxIter self /\
  trials self (Z.to_nat (_maxIter self)) tape = Ok ([tr], [0; 1; 2; 3; 4]) /\
  numLabels tr < _minLabels self /\
  get_image self true 1 tape = Raise ZeroDivisionError.
Proof.
  cbv zeta. split; [simpl; lia|]. split; [reflexivity|].
  split; [reflexivity|]. reflexivity.
Qed.

Lemma C2_best_effort_returns_witness :
  let self := dataset [mkLabel 0 20 20 30 30 100] 2 2 false in
  let tape := [3; 4; 18; 18; 1; 2; 3; 4; 5; 7] in
  let tr1 := mkTrial (mkRect 3 4 13 14) [] in
  let tr2 := mkTrial (mkRect 18 18 28 28) [mkLabel 0 2 2 10 10 64] in
  trials self 2 tape = Ok ([tr1; tr2], [1; 2; 3; 4; 5; 7]) /\
  exists best labels,
    In best [tr1; tr2] /\
    (forall t, In t [tr1; tr2] -> numLabels t <= numLabels best) /\
    numLabels best < 2 /\
    let tile :=
      Util.crop blank_mosaic (ryTop (rect best)) (ryBottom (rect best))
                (rxLeft (rect best)) (rxRight (rect best)) in
    let transformed :=
      Util.transform_image tile (curLabels best) (1 mod 4)
        (Qmake (2 mod 2 ^ 53) (2 ^ 53)) (_brightScale self)
        (Qmake (3 mod 2 ^ 53) (2 ^ 53) * (_maxVSigma self - _minVSigma self)
         + _minVSigma self)%Q
        (Qmake (4 mod 2 ^ 53) (2 ^ 53) * (_maxVX self - _minVX self)
         + _minVX self)%Q
        (Qmake (5 mod 2 ^ 53) (2 ^ 53) * (_maxVY self - _minVY self)
         + _minVY self)%Q in
    well_formed tile /\
    Util.shape0 tile = 10 /\
    Util.shape1 tile = 10 /\
    (forall i j, 0 <= i < 10 -> 0 <= j < 10 ->
                 pixel_at tile i j
                 = pixel_at blank_mosaic (ryTop (rect best) + i)
                            (rxLeft (rect best) + j)) /\
    Util.convert_objdetect_labels (Util.AbsoluteLabels (snd transformed))
                                  10 10 1
    = Ok labels /\
    Z.of_nat (count labels) = numLabels best /\
    get_image self true 1 tape
    = Ok ((if true then Util.img_as_ubyte (fst transformed)
           else fst transformed, labels), [7]).
Proof.
  cbv zeta. split; [reflexivity|].
  apply (C2_best_effort_returns
           (dataset [mkLabel 0 20 20 30 30 100] 2 2 false) true 1
           [3; 4; 18; 18; 1; 2; 3; 4; 5; 7] [7] 1 2 3 4 5).
  - simpl. lia.
  - reflexivity.
  - repeat constructor.
  - exact blank_mosaic_well_formed.
  - vm_compute. discriminate.
  - vm_compute. discriminate.
  - vm_compute. discriminate.
  - vm_compute. discriminate.
  - simpl. lia.
  - simpl. lia.
  - right. simpl. repeat split; discriminate.
Defined.

Lemma X14_trial_in_region_witness :
  let self := mkDataSet unit 10 10 2 (1 # 2) 2 (1 # 10) (1 # 2) (5 # 4)
                        (2 # 5) (3 # 5) (2 # 5) (3 # 5) false
                        blank_mosaic [] 0 100 (404 # 5) 100 in
  trial self [5; 0; 7] = Ok (mkTrial (mkRect 5 80 15 90) [], [7]) /\
  in_region self (mkRect 5 80 15 90).
Proof.
  cbv zeta. split; [reflexivity|].
  apply (X14_trial_in_region
           (mkDataSet unit 10 10 2 (1 # 2) 2 (1 # 10) (1 # 2) (5 # 4)
                      (2 # 5) (3 # 5) (2 # 5) (3 # 5) false
                      blank_mosaic [] 0 100 (404 # 5) 100)
           [5; 0; 7] [7] (mkTrial (mkRect 5 80 15 90) [])).
  reflexivity.
Defined.

Lemma X15_trial_labels_are_a_whole_clip_witness :
  let self := dataset [mkLabel 0 20 20 30 30 100] 1 2 true in
  let tr := mkTrial (mkRect 20 20 30 30) [mkLabel 0 0 0 10 10 100] in
  trial self [15; 15; 20; 20; 7] = Ok (tr, [7]) /\
  Util.get_labels_in_rectangle (_theLabels self) (rect tr) (_minArea self)
                               (_rejectPartial self)
  = Ok (curLabels tr, false).
Proof.
  cbv zeta. split; [reflexivity|].
  apply (X15_trial_labels_are_a_whole_clip
           (dataset [mkLabel 0 20 20 30 30 100] 1 2 true)
           [15; 15; 20; 20; 7] [7]).
  reflexivity.
Defined.

Lemma X16_accepted_trial_is_delivered_witness :
  let self := dataset [mkLabel 0 20 20 30 30 100] 1 3 false in
  let tape := [3; 4; 18; 18; 50; 50] in
  let tr := mkTrial (mkRect 18 18 28 28) [mkLabel 0 2 2 10 10 64] in
  iterate self (Z.to_nat (_maxIter self)) initial tape = Ok (recorded tr, [50; 50]) /\
  get_image self true 1 tape
  = deliver self (rect tr) (curLabels tr) true 1 [50; 50].
Proof.
  cbv zeta.
  apply (X16_accepted_trial_is_delivered
           (dataset [mkLabel 0 20 20 30 30 100] 1 3 false) true 1 1
           [3; 4; 18; 18; 50; 50] [18; 18; 50; 50] [50; 50]
           [mkTrial (mkRect 3 4 13 14) []]).
  - simpl. lia.
  - reflexivity.
  - repeat constructor.
  - reflexivity.
  - simpl. discriminate.
Defined.

(** A tile without a column: the draws succeed and the transformation of
    the empty tile raises. *)
Example get_image_empty_tile :
  get_image (mkDataSet unit 0 10 0 (1 # 2) 1 (1 # 10) (1 # 2) (5 # 4)
                       (2 # 5) (3 # 5) (2 # 5) (3 # 5) false
                       blank_mosaic [] 0 100 0 100)
            true 0 [3; 4; 0; 1; 2; 3; 4]
  = Raise ValueError.
Proof. reflexivity. Qed.

Lemma X17_empty_range_raises_witness :
  get_image (mkDataSet unit 10 10 1 (1 # 2) 5 (1 # 10) (1 # 2) (5 # 4)
                       (2 # 5) (3 # 5) (2 # 5) (3 # 5) false
                       blank_mosaic [] 0 (21 # 2) 0 100)
            true 1 [3; 4; 5]
  = Raise ValueError.
Proof.
  apply (X17_empty_range_raises
           (mkDataSet unit 10 10 1 (1 # 2) 5 (1 # 10) (1 # 2) (5 # 4)
                      (2 # 5) (3 # 5) (2 # 5) (3 # 5) false
                      blank_mosaic [] 0 (21 # 2) 0 100)).
  - simpl. lia.
  - left. vm_compute. discriminate.
Defined.

Lemma X18_get_image_raises_nothing_witness :
  let self := dataset [mkLabel 0 20 20 30 30 100] 2 2 true in
  let tape := [3; 4; 18; 18; 20; 20; 0; 2; 3; 4; 5; 7] in
  (exists img labels,
      get_image self true 1 tape = Ok ((img, Util.YoloLabels labels), [7]) /\
      Util.shape0 img = 10 /\ Util.shape1 img = 10 /\ length labels = 1%nat) /\
  ((forall e, get_image self true 1 tape <> Raise e) /\
   (forall st d1 d2 d3 d4 d5 tape',
       iterate self (Z.to_nat (_maxIter self)) initial tape
       = Ok (st, d1 :: d2 :: d3 :: d4 :: d5 :: tape') ->
       exists result, get_image self true 1 tape = Ok (result, tape'))).
Proof.
  cbv zeta. split; [eexists; eexists; vm_compute; repeat split|].
  apply (X18_get_image_raises_nothing
           (dataset [mkLabel 0 20 20 30 30 100] 2 2 true)).
  - vm_compute. reflexivity.
  - vm_compute. reflexivity.
  - intros l [<-|[]]. simpl. lia.
  - exact blank_mosaic_well_formed.
  - vm_compute. discriminate.
  - vm_compute. discriminate.
  - vm_compute. discriminate.
  - vm_compute. discriminate.
  - simpl. lia.
  - simpl. lia.
  - simpl. lia.
  - right. simpl. repeat split; discriminate.
Defined.

Lemma X19_tile_has_the_configured_size_witness :
  let self := dataset [mkLabel 0 20 20 30 30 100] 2 2 false in
  let outImage := Util.crop (_theMosaic self) 4 14 3 13 in
  well_formed outImage /\
  Util.shape0 outImage = 10 /\ Util.shape1 outImage = 10.
Proof.
  cbv zeta.
  apply (X19_tile_has_the_configured_size
           (dataset [mkLabel 0 20 20 30 30 100] 2 2 false)
           [3; 4; 18; 18] [18; 18] (mkTrial (mkRect 3 4 13 14) []));
    try (simpl; lia); try (vm_compute; discriminate).
  - exact blank_mosaic_well_formed.
  - reflexivity.
Defined.

Lemma X20_stacked_regions_share_no_row_witness :
  let train := mkDataSet unit 10 10 0 (1 # 2) 5 (1 # 10) (1 # 2) (5 # 4)
                         (2 # 5) (3 # 5) (2 # 5) (3 # 5) false
                         blank_mosaic [] 0 100 0 (404 # 5) in
  let validation := mkDataSet unit 10 10 0 (1 # 2) 5 (1 # 10) (1 # 2) (5 # 4)
                              (2 # 5) (3 # 5) (2 # 5) (3 # 5) false
                              blank_mosaic [] 0 100 (404 # 5) 100 in
  trial train [5; 69] = Ok (mkTrial (mkRect 5 69 15 79) [], []) /\
  trial validation [5; 0] = Ok (mkTrial (mkRect 5 80 15 90) [], []) /\
  (79 <= 80 /\
   forall x y, ~ (in_rect (mkRect 5 69 15 79) x y /\
                  in_rect (mkRect 5 80 15 90) x y)).
Proof.
  cbv zeta. split; [reflexivity|]. split; [reflexivity|].
  apply (X20_stacked_regions_share_no_row
           (mkDataSet unit 10 10 0 (1 # 2) 5 (1 # 10) (1 # 2) (5 # 4)
                      (2 # 5) (3 # 5) (2 # 5) (3 # 5) false
                      blank_mosaic [] 0 100 0 (404 # 5))
           (mkDataSet unit 10 10 0 (1 # 2) 5 (1 # 10) (1 # 2) (5 # 4)
                      (2 # 5) (3 # 5) (2 # 5) (3 # 5) false
                      blank_mosaic [] 0 100 (404 # 5) 100)
           [5; 69] [] [5; 0] []
           (mkTrial (mkRect 5 69 15 79) []) (mkTrial (mkRect 5 80 15 90) [])).
  - vm_compute. discriminate.
  - reflexivity.
  - reflexivity.
Defined.

Lemma X21_returned_count_is_best_count_witness :
  let self := dataset [mkLabel 0 20 20 30 30 100] 2 2 false in
  let tape := [3; 4; 18; 18; 0; 2; 3; 4; 5] in
  exists st t1,
    iterate self (Z.to_nat (_maxIter self)) initial tape = Ok (st, t1) /\
    Z.of_nat (count (Util.AbsoluteLabels [mkLabel 0 (-27) (-27) 63 63 10000]))
    = maxLabels st.
Proof.
  cbv zeta.
  eapply (X21_returned_count_is_best_count
            (dataset [mkLabel 0 20 20 30 30 100] 2 2 false) true 0
            [3; 4; 18; 18; 0; 2; 3; 4; 5]).
  vm_compute. reflexivity.
Defined.

Lemma X22_no_minimum_first_trial_witness :
  let self := dataset [mkLabel 0 20 20 30 30 100] 0 1000 false in
  get_image self true 1 [3; 4; 18; 18]
  = deliver self (mkRect 3 4 13 14) [] true 1 [18; 18].
Proof.
  cbv zeta.
  apply (X22_no_minimum_first_trial
           (dataset [mkLabel 0 20 20 30 30 100] 0 1000 false) true 1
           [3; 4; 18; 18] [18; 18] (mkTrial (mkRect 3 4 13 14) [])).
  - simpl. lia.
  - simpl. lia.
  - reflexivity.
Defined.

Lemma X23_whole_labels_only_witness :
  let self := dataset [mkLabel 0 20 20 30 30 100; mkLabel 1 60 60 64 64 16]
                      1 2 true in
  let r := mkRect 20 20 30 30 in
  trial self [15; 15; 20; 20; 7] = Ok (mkTrial r [mkLabel 0 0 0 10 10 100], [7]) /\
  ((forall l, In l (_theLabels self) ->
              Util.is_candidate l r = true -> contained l r) /\
   [mkLabel 0 0 0 10 10 100]
   = map (translate r) (filter (fun l => Util.is_candidate l r) (_theLabels self))).
Proof.
  cbv zeta. split; [reflexivity|].
  apply (X23_whole_labels_only
           (dataset [mkLabel 0 20 20 30 30 100; mkLabel 1 60 60 64 64 16] 1 2 true)
           [15; 15; 20; 20; 7] [7]
           (mkTrial (mkRect 20 20 30 30) [mkLabel 0 0 0 10 10 100])).
  - reflexivity.
  - simpl. lia.
  - simpl. lia.
  - repeat constructor; simpl; lia.
  - discriminate.
  - reflexivity.
Defined.

Lemma X24_trial_labels_in_tile_witness :
  let self := dataset [mkLabel 0 20 20 30 30 100] 2 2 false in
  trial self [18; 18; 7] = Ok (mkTrial (mkRect 18 18 28 28)
                                       [mkLabel 0 2 2 10 10 64], [7]) /\
  Forall (within_tile (mkRect 0 0 10 10)) [mkLabel 0 2 2 10 10 64].
Proof.
  cbv zeta. split; [reflexivity|].
  apply (X24_trial_labels_in_tile
           (dataset [mkLabel 0 20 20 30 30 100] 2 2 false) [18; 18; 7] [7]
           (mkTrial (mkRect 18 18 28 28) [mkLabel 0 2 2 10 10 64])).
  - simpl. lia.
  - simpl. lia.
  - repeat constructor; simpl; lia.
  - reflexivity.
Defined.

End SamplerMore.
